(** * PeerLinks desktop: the IPC coordination layer of [src/electron/network.js]

    A shallow embedding of the [Network] class: its registries (update
    loops, dirty channels, pending invites), the request router built by
    [initIPC], and the handlers whose behaviour is specified.  Asynchronous
    handlers are embedded as tasks: a handler runs on the shared [Network]
    state up to its next [await], where it hands back a continuation that is
    resumed with the way the awaited promise settled. *)

From Stdlib Require Import Strings.Ascii Strings.String Strings.Byte NArith.
From stdpp Require Import gmap strings list fin_maps pretty.

Local Open Scope string_scope.
Local Open Scope list_scope.
Local Open Scope nat_scope.

(** ** Buffers and their hex spelling

    [Buffer.from(s, 'hex')] reads two hex digits per byte, in either case,
    and stops at the first pair that is not hex (a trailing single digit is
    dropped); [buf.toString('hex')] writes lower-case digits. *)

Module Hex.

Definition Buffer := list byte.

(** The digit of a nibble: ['0'..'9'] are the codes 48..57, ['a'..'f'] the
    codes 97..102. *)
Definition digit (n : N) : ascii :=
  ascii_of_N (if (n <? 10)%N then 48 + n else 87 + n)%N.

(** The nibble of a digit, upper case ([65..70]) included. *)
Definition value (c : ascii) : option N :=
  let n := N_of_ascii c in
  if ((48 <=? n) && (n <=? 57))%N then Some (n - 48)%N
  else if ((97 <=? n) && (n <=? 102))%N then Some (n - 87)%N
  else if ((65 <=? n) && (n <=? 70))%N then Some (n - 55)%N
  else None.

(** [buf.toString('hex')] *)
Fixpoint toHex (b : Buffer) : string :=
  match b with
  | [] => ""
  | x :: r =>
      String (digit (Byte.to_N x / 16)) (String (digit (Byte.to_N x mod 16)) (toHex r))
  end.

(** [Buffer.from(s, 'hex')] *)
Fixpoint fromHex (s : string) : Buffer :=
  match s with
  | String hi (String lo r) =>
      match value hi, value lo with
      | Some h, Some l =>
          match Byte.of_N (16 * h + l) with
          | Some x => x :: fromHex r
          | None => []
          end
      | _, _ => []
      end
  | _ => []
  end.

(** [a.equals(b)] on buffers *)
Definition equals (a b : Buffer) : bool :=
  bool_decide (map Byte.to_N a = map Byte.to_N b).

End Hex.

Import Hex.

(** ** Data model *)

(** A JavaScript [Error] as the router sees it: [err.message], and the
    header line of [err.stack] (the frames below it are not modelled). *)
Record JSError := { ename : string; message : string }.

Definition mkError (msg : string) : JSError := {| ename := "Error"; message := msg |}.
Definition mkTypeError (msg : string) : JSError := {| ename := "TypeError"; message := msg |}.
Definition stack (e : JSError) : string := ename e +:+ ": " +:+ message e.

(** How a promise settles. *)
Inductive Outcome (X : Type) : Type :=
  | Fulfilled (x : X)
  | Rejected (e : JSError).
Arguments Fulfilled {X} x.
Arguments Rejected {X} e.

(** The metadata of a channel, by the two keys the instance reads or writes.
    [readCount] is whatever number the front end last sent: the handler that
    stores it checks nothing, so it may be negative (numbers are integers
    here; [None] is a missing key). *)
Record ChanMeta := { readCount : option Z; meta_isFeed : option bool }.

(** A channel object of the protocol library; [cref] is the identity of
    the JavaScript object (what [includes], [WeakMap] and [WeakSet] compare). *)
Record Channel := {
  cref : nat;
  chan_id : Buffer;
  chan_publicKey : Buffer;
  chan_name : string;
  chan_isFeed : bool;
  chan_metadata : ChanMeta;
}.

Record Identity := {
  iref : nat;
  ident_publicKey : Buffer;
  ident_name : string;
}.

Record Invite := {
  inv_channelName : string;
  inv_channelPubKey : Buffer;
  inv_chain : list Buffer;
}.
Record EncryptedInvite := { box : Buffer; enc_requestId : Buffer }.

(** The record built by [serializeChannel]. *)
Record SerializedChannel := {
  ser_id : string; ser_publicKey : string; ser_publicKeyB58 : string;
  ser_name : string; ser_isFeed : bool;
  ser_messageCount : nat; ser_maxHeight : nat;
}.

(** Values handlers resolve with. *)
Inductive Value :=
  | VUndefined
  | VBool (b : bool)
  | VRequest (request : string)          (* [{ request: encoded }] *)
  | VChannel (c : SerializedChannel)
  | VOther (tag : nat).

(** An entry of [this.pendingInvites]; [pref] is the identity of the entry
    object, which the closure of a suspended [waitForInvite] keeps. *)
Record PendingInvite := {
  pref : nat;
  requestId : Buffer;
  decrypt : EncryptedInvite → Invite + JSError;
  encoded : string;
  waiter : option nat;
}.

Definition with_waiter (w : option nat) (e : PendingInvite) : PendingInvite :=
  {| pref := pref e; requestId := requestId e; decrypt := decrypt e;
     encoded := encoded e; waiter := w |}.

(** ** The wait list ([promise-waitlist]) *)

Module WaitList.

Record Waiter := { wid : nat; wtimeout : option nat }.

(** Modelled from the spec: the keyed multi-waiter primitive of section 4.1
    (an npm dependency, absent from the sources).  [waiting] holds the
    registered waiters per topic; [delivered] holds how each settled waiter's
    promise settled, for the task suspended on it to pick up. *)
Record t := {
  waiting : gmap string (list Waiter);
  delivered : gmap nat (Outcome Value);
  next : nat;
}.

Definition empty : t := {| waiting := ∅; delivered := ∅; next := 0 |}.

Definition waitersOf (topic : string) (wl : t) : list Waiter :=
  default [] (waiting wl !! topic).

(** Modelled from the spec: [waitFor(topic, timeout)] registers a new waiter
    under [topic] and returns its handle. *)
Definition waitFor (topic : string) (timeout : option nat) (wl : t) : nat * t :=
  let w := {| wid := next wl; wtimeout := timeout |} in
  (next wl,
   {| waiting := <[topic := waitersOf topic wl ++ [w]]> (waiting wl);
      delivered := delivered wl;
      next := S (next wl) |}).

(** Modelled from the spec: [resolve(topic, value)] hands [value] to every
    waiter registered on [topic] and removes them all; a no-op without
    waiters. *)
Definition resolve (topic : string) (v : Value) (wl : t) : t :=
  {| waiting := delete topic (waiting wl);
     delivered := foldr (λ w d, <[wid w := Fulfilled v]> d) (delivered wl) (waitersOf topic wl);
     next := next wl |}.

Definition timeoutError (topic : string) : JSError := mkError "Timed out".

(** Modelled from the spec: the timeout of waiter [w] on [topic] elapses
    before a resolution; the waiter fails with a [Timeout] error. *)
Definition expire (topic : string) (w : nat) (wl : t) : t :=
  match list_find (λ x, wid x = w ∧ is_Some (wtimeout x)) (waitersOf topic wl) with
  | Some _ =>
      {| waiting := <[topic := filter (λ x, wid x ≠ w) (waitersOf topic wl)]> (waiting wl);
         delivered := <[w := Rejected (timeoutError topic)]> (delivered wl);
         next := next wl |}
  | None => wl
  end.

(** Waiter [w] is registered on [topic]. *)
Definition registered (topic : string) (w : nat) (wl : t) : Prop :=
  ∃ x, x ∈ waitersOf topic wl ∧ wid x = w.

End WaitList.

(** ** The swarm ([@peerlinks/swarm]) *)

Module Swarm.

Inductive Status := Pending | Cancelled.

(** Modelled from the spec: the part of the swarm object the invite
    coordinator consumes (section 6): [waitForInvite(requestId)] returns a
    cancellable awaitable, [joinChannel] records a membership. *)
Record t := {
  invites : gmap nat (Buffer * Status);
  joined : list nat;
}.

Definition empty : t := {| invites := ∅; joined := [] |}.

(** The handle is a new object: an identity no earlier handle has. *)
Definition waitForInvite (requestId : Buffer) (sw : t) : nat * t :=
  let w := fresh (dom (invites sw)) in
  (w, {| invites := <[w := (requestId, Pending)]> (invites sw); joined := joined sw |}).

(** Modelled from the spec: [cancel()] on a handle fails that wait with a
    [Cancelled] error; on a handle that is not pending it does nothing. *)
Definition cancel (w : nat) (sw : t) : t :=
  match invites sw !! w with
  | Some (r, Pending) =>
      {| invites := <[w := (r, Cancelled)]> (invites sw); joined := joined sw |}
  | _ => sw
  end.

Definition joinChannel (c : nat) (sw : t) : t :=
  {| invites := invites sw; joined := joined sw ++ [c] |}.

End Swarm.

(** ** The state of a [Network] instance *)

Inductive LoopPhase := AwaitingEntry | AwaitingBadge.

(** A suspended activation of [runUpdateLoop]: the channel object and the
    timeout it was called with, the entry it obtained from the channel's
    [waitForIncomingMessage], and the [await] it is suspended on. *)
Record LoopTask := {
  lt_channel : Channel;
  lt_timeout : option nat;
  lt_entry : nat;
  lt_phase : LoopPhase;
}.

Record Network := {
  isReady : bool;
  channels : list Channel;                     (* [this.peerLinks.channels] *)
  identities : list Identity;                  (* [this.peerLinks.identities] *)
  peerId : Buffer;                             (* [this.peerLinks.id] *)
  waitList : WaitList.t;
  updateLoops : gmap nat nat;                  (* [WeakMap<Channel, Entry>], by object *)
  updatedChannels : gset nat;                  (* [WeakSet<Channel>], by object *)
  chainMapUpdated : bool;
  pendingInvites : gmap string PendingInvite;
  swarm : Swarm.t;
  loopTasks : list LoopTask;                   (* suspended [runUpdateLoop] activations *)
  nextRef : nat;                               (* next fresh object identity *)
}.

(** What the constructor leaves behind. *)
Definition newNetwork : Network :=
  {| isReady := false; channels := []; identities := []; peerId := [];
     waitList := WaitList.empty; updateLoops := ∅; updatedChannels := ∅;
     chainMapUpdated := false; pendingInvites := ∅; swarm := Swarm.empty;
     loopTasks := []; nextRef := 0 |}.

Definition set_channels (f : list Channel → list Channel) (st : Network) : Network :=
  {| isReady := isReady st; channels := f (channels st); identities := identities st;
     peerId := peerId st; waitList := waitList st; updateLoops := updateLoops st;
     updatedChannels := updatedChannels st; chainMapUpdated := chainMapUpdated st;
     pendingInvites := pendingInvites st; swarm := swarm st;
     loopTasks := loopTasks st; nextRef := nextRef st |}.

Definition set_identities (f : list Identity → list Identity) (st : Network) : Network :=
  {| isReady := isReady st; channels := channels st; identities := f (identities st);
     peerId := peerId st; waitList := waitList st; updateLoops := updateLoops st;
     updatedChannels := updatedChannels st; chainMapUpdated := chainMapUpdated st;
     pendingInvites := pendingInvites st; swarm := swarm st;
     loopTasks := loopTasks st; nextRef := nextRef st |}.

Definition set_waitList (f : WaitList.t → WaitList.t) (st : Network) : Network :=
  {| isReady := isReady st; channels := channels st; identities := identities st;
     peerId := peerId st; waitList := f (waitList st); updateLoops := updateLoops st;
     updatedChannels := updatedChannels st; chainMapUpdated := chainMapUpdated st;
     pendingInvites := pendingInvites st; swarm := swarm st;
     loopTasks := loopTasks st; nextRef := nextRef st |}.

Definition set_updateLoops (f : gmap nat nat → gmap nat nat) (st : Network) : Network :=
  {| isReady := isReady st; channels := channels st; identities := identities st;
     peerId := peerId st; waitList := waitList st; updateLoops := f (updateLoops st);
     updatedChannels := updatedChannels st; chainMapUpdated := chainMapUpdated st;
     pendingInvites := pendingInvites st; swarm := swarm st;
     loopTasks := loopTasks st; nextRef := nextRef st |}.

Definition set_updatedChannels (f : gset nat → gset nat) (st : Network) : Network :=
  {| isReady := isReady st; channels := channels st; identities := identities st;
     peerId := peerId st; waitList := waitList st; updateLoops := updateLoops st;
     updatedChannels := f (updatedChannels st); chainMapUpdated := chainMapUpdated st;
     pendingInvites := pendingInvites st; swarm := swarm st;
     loopTasks := loopTasks st; nextRef := nextRef st |}.

Definition set_pendingInvites
    (f : gmap string PendingInvite → gmap string PendingInvite) (st : Network) : Network :=
  {| isReady := isReady st; channels := channels st; identities := identities st;
     peerId := peerId st; waitList := waitList st; updateLoops := updateLoops st;
     updatedChannels := updatedChannels st; chainMapUpdated := chainMapUpdated st;
     pendingInvites := f (pendingInvites st); swarm := swarm st;
     loopTasks := loopTasks st; nextRef := nextRef st |}.

Definition set_swarm (f : Swarm.t → Swarm.t) (st : Network) : Network :=
  {| isReady := isReady st; channels := channels st; identities := identities st;
     peerId := peerId st; waitList := waitList st; updateLoops := updateLoops st;
     updatedChannels := updatedChannels st; chainMapUpdated := chainMapUpdated st;
     pendingInvites := pendingInvites st; swarm := f (swarm st);
     loopTasks := loopTasks st; nextRef := nextRef st |}.

Definition set_loopTasks (f : list LoopTask → list LoopTask) (st : Network) : Network :=
  {| isReady := isReady st; channels := channels st; identities := identities st;
     peerId := peerId st; waitList := waitList st; updateLoops := updateLoops st;
     updatedChannels := updatedChannels st; chainMapUpdated := chainMapUpdated st;
     pendingInvites := pendingInvites st; swarm := swarm st;
     loopTasks := f (loopTasks st); nextRef := nextRef st |}.

Definition set_nextRef (f : nat → nat) (st : Network) : Network :=
  {| isReady := isReady st; channels := channels st; identities := identities st;
     peerId := peerId st; waitList := waitList st; updateLoops := updateLoops st;
     updatedChannels := updatedChannels st; chainMapUpdated := chainMapUpdated st;
     pendingInvites := pendingInvites st; swarm := swarm st;
     loopTasks := loopTasks st; nextRef := f (nextRef st) |}.

(** ** Lookups *)

(** [channelById]: [Buffer.from(id, 'hex')], then the first channel whose
    [id] equals it. *)
Definition channelById (st : Network) (id : string) : option Channel :=
  find (λ channel, equals (chan_id channel) (fromHex id)) (channels st).

Definition identityByKey (st : Network) (key : string) : option Identity :=
  find (λ identity, equals (ident_publicKey identity) (fromHex key)) (identities st).

(** [peerLinks.getChannel(name)] and [peerLinks.getIdentity(name)] of the
    protocol library: the first entry with that name. *)
Definition getChannel (chs : list Channel) (name : string) : option Channel :=
  find (λ channel, String.eqb (chan_name channel) name) chs.

Definition getIdentity (ids : list Identity) (name : string) : option Identity :=
  find (λ identity, String.eqb (ident_name identity) name) ids.

(** [channels.includes(channel)]: by object identity. *)
Definition includes (channel : Channel) (chs : list Channel) : bool :=
  existsb (λ c, Nat.eqb (cref c) (cref channel)) chs.

(** The topic the update loop of a channel broadcasts on. *)
Definition updateTopic (channel : Channel) : string :=
  "update:" +:+ toHex (chan_id channel).

(** ** The per-channel update loop *)

(** [runUpdateLoop(channel, timeout)] up to its first [await]. *)
Definition runUpdateLoop (channel : Channel) (timeout : option nat) (st : Network) : Network :=
  if negb (includes channel (channels st)) then st          (* channel removed *)
  else if bool_decide (is_Some (updateLoops st !! cref channel)) then st
  else
    let entry := nextRef st in        (* [channel.waitForIncomingMessage(timeout)] *)
    let task := {| lt_channel := channel; lt_timeout := timeout;
                   lt_entry := entry; lt_phase := AwaitingEntry |} in
    set_loopTasks (λ ts, ts ++ [task])
      (set_updateLoops (insert (cref channel) entry)
         (set_nextRef S st)).

Definition dropTask (entry : nat) (ts : list LoopTask) : list LoopTask :=
  filter (λ t, lt_entry t ≠ entry) ts.

Definition findTask (entry : nat) (phase : LoopPhase) (st : Network) : option LoopTask :=
  find (λ t, Nat.eqb (lt_entry t) entry &&
             match lt_phase t, phase with
             | AwaitingEntry, AwaitingEntry | AwaitingBadge, AwaitingBadge => true
             | _, _ => false
             end) (loopTasks st).

(** The [finally] block: [this.updateLoops.delete(channel)], after which the
    activation is over. *)
Definition loopFinally (t : LoopTask) (st : Network) : Network :=
  set_loopTasks (dropTask (lt_entry t))
    (set_updateLoops (delete (cref (lt_channel t))) st).

(** The activation holding [entry] resumes from [await entry]. *)
Definition loopEntrySettled (entry : nat) (o : Outcome unit) (st : Network) : Network :=
  match findTask entry AwaitingEntry st with
  | None => st
  | Some t =>
      match o with
      | Fulfilled _ =>                (* goes on to [await this.updateBadge()] *)
          set_loopTasks
            (fmap (λ x, if Nat.eqb (lt_entry x) entry
                       then {| lt_channel := lt_channel x; lt_timeout := lt_timeout x;
                               lt_entry := lt_entry x; lt_phase := AwaitingBadge |}
                       else x)) st
      | Rejected _ => loopFinally t st                    (* [catch]: return *)
      end
  end.

(** The activation holding [entry] resumes from [await this.updateBadge()]. *)
Definition loopBadgeSettled (entry : nat) (o : Outcome unit) (st : Network) : Network :=
  match findTask entry AwaitingBadge st with
  | None => st
  | Some t =>
      match o with
      | Fulfilled _ =>
          let st1 := set_updatedChannels (union {[cref (lt_channel t)]}) st in
          let st2 := set_waitList
                       (WaitList.resolve (updateTopic (lt_channel t)) (VBool true)) st1 in
          runUpdateLoop (lt_channel t) (lt_timeout t) (loopFinally t st2)
      | Rejected _ => loopFinally t st
      end
  end.

(** ** Asynchronous handlers *)

(** What a handler can [await]; the index is the type of the value the
    awaited promise fulfils with. *)
Inductive Awaitable : Type → Type :=
  | RemoveChannel (channel : nat) : Awaitable unit       (* [peerLinks.removeChannel] *)
  | RemoveIdentity (identity : nat) : Awaitable unit     (* [peerLinks.removeIdentity] *)
  | SaveChannel (channel : nat) : Awaitable unit         (* [peerLinks.saveChannel] *)
  | SaveIdentity (identity : nat) : Awaitable unit       (* [peerLinks.saveIdentity] *)
  | UpdateBadge : Awaitable unit                         (* [this.updateBadge()] *)
  | WaitListEntry (w : nat) : Awaitable Value            (* an entry of [this.waitList] *)
  | SwarmInvite (w : nat) : Awaitable EncryptedInvite    (* [swarm.waitForInvite] *)
  | ChannelFromInvite (invite : Invite) (identity : nat) (name : string)
      : Awaitable Channel                                (* [peerLinks.channelFromInvite] *)
  | SerializeChannel (channel : nat) : Awaitable SerializedChannel.

#[local] Set Warnings "-register-all".

(** A handler in flight: settled, or suspended on an [await] with the code
    that runs, on the state of that moment, once the awaited promise settles. *)
Inductive Task : Type :=
  | Fin (r : Outcome Value)
  | Await {X : Type} (a : Awaitable X) (k : Outcome X → Network → Network * Task).

Definition Handler (P : Type) : Type := P → Network → Network * Task.

Definition ret (v : Value) : Task := Fin (Fulfilled v).
Definition throw (e : JSError) : Task := Fin (Rejected e).

(** [await a] outside any [try]: a rejection propagates. *)
Definition await {X : Type} (a : Awaitable X) (k : X → Network → Network * Task) : Task :=
  Await a (λ o st, match o with
                   | Fulfilled x => k x st
                   | Rejected e => (st, throw e)
                   end).

(** Runs a task alone: [env] stands for the libraries, it says what an
    awaited operation does to the shared state and how its promise settles. *)
Definition Env : Type := ∀ X, Awaitable X → Network → Network * Outcome X.

Fixpoint runTask (env : Env) (st : Network) (t : Task) : Network * Outcome Value :=
  match t with
  | Fin r => (st, r)
  | Await a k =>
      let '(st1, o) := env _ a st in
      let '(st2, t') := k o st1 in
      runTask env st2 t'
  end.

(** Runs a handler alone on a request, from its call to its end. *)
Definition runHandler {P : Type} (env : Env) (handler : Handler P) (payload : P)
    (st : Network) : Network * Outcome Value :=
  let '(st1, t) := handler payload st in runTask env st1 t.

(** ** The handlers of [initIPC] *)

Record RemovePayload := { rm_channelId : string; rm_identityKey : string }.
Record WaitMessagePayload := { wm_channelId : string; wm_timeout : option nat }.
Record RenamePayload := {
  rn_channelId : option string;      (* [None] is [undefined] *)
  rn_identityKey : option string;
  rn_newName : string;
}.

Definition dquote : string := String "034"%char EmptyString.

(** JavaScript truthiness of a string that may be [undefined]. *)
Definition truthy (s : option string) : bool :=
  match s with
  | Some (String _ _) => true
  | _ => false
  end.

(** *** [removeIdentityPair] *)

(** "Cancel pending invites": the last statement of the handler. *)
Definition cancelPending (identityKey : string) (st : Network) : Network :=
  match pendingInvites st !! identityKey with
  | Some pending =>
      match waiter pending with
      | Some w => set_swarm (Swarm.cancel w) st
      | None => st
      end
  | None => st
  end.

(** From [this.waitList.resolve('update:' + channel.id.toString('hex'), false)]
    on; [channel] is the result of the lookup at the top of the handler. *)
Definition removeIdentityPair_finish (channel : option Channel) (identityKey : string)
    (st : Network) : Network * Task :=
  match channel with
  | None => (st, throw (mkTypeError "Cannot read property 'id' of undefined"))
  | Some c =>
      (cancelPending identityKey
         (set_waitList (WaitList.resolve (updateTopic c) (VBool false)) st),
       ret VUndefined)
  end.

Definition removeIdentityPair_identity (channel : option Channel) (identityKey : string)
    (st : Network) : Network * Task :=
  let badge := await UpdateBadge (λ _, removeIdentityPair_finish channel identityKey) in
  match identityByKey st identityKey with
  | Some identity => (st, await (RemoveIdentity (iref identity)) (λ _ st', (st', badge)))
  | None => (st, badge)
  end.

Definition removeIdentityPair : Handler RemovePayload := λ p st,
  let channel := channelById st (rm_channelId p) in
  match channel with
  | Some c =>
      (st, await (RemoveChannel (cref c))
             (λ _, removeIdentityPair_identity channel (rm_identityKey p)))
  | None => removeIdentityPair_identity channel (rm_identityKey p) st
  end.

(** *** [waitForIncomingMessage] *)

Definition waitForIncomingMessage : Handler WaitMessagePayload := λ p st,
  match channelById st (wm_channelId p) with
  | None => (st, throw (mkError ("Channel not found: " +:+ wm_channelId p)))
  | Some channel =>
      if bool_decide (cref channel ∈ updatedChannels st) then
        (set_updatedChannels (λ s, s ∖ {[cref channel]}) st, ret (VBool true))
      else
        (* [channelId] is a string: its [toString('hex')] is itself *)
        let '(w, wl) :=
          WaitList.waitFor ("update:" +:+ wm_channelId p) (wm_timeout p) (waitList st) in
        (set_waitList (λ _, wl) st,
         await (WaitListEntry w)
           (λ isAlive st',
              (set_updatedChannels (λ s, s ∖ {[cref channel]}) st', ret isAlive)))
  end.

(** *** [renameIdentityPair] *)

Definition renameChannel (c : nat) (newName : string) (chs : list Channel) : list Channel :=
  map (λ x, if Nat.eqb (cref x) c
            then {| cref := cref x; chan_id := chan_id x; chan_publicKey := chan_publicKey x;
                    chan_name := newName; chan_isFeed := chan_isFeed x;
                    chan_metadata := chan_metadata x |}
            else x) chs.

Definition renameIdentity (i : nat) (newName : string) (ids : list Identity) : list Identity :=
  map (λ x, if Nat.eqb (iref x) i
            then {| iref := iref x; ident_publicKey := ident_publicKey x;
                    ident_name := newName |}
            else x) ids.

Definition renameIdentityPair_identity (identity : option Identity) (newName : string)
    (st : Network) : Network * Task :=
  match identity with
  | Some i =>
      (set_identities (renameIdentity (iref i) newName) st,
       await (SaveIdentity (iref i)) (λ _ st', (st', ret VUndefined)))
  | None => (st, ret VUndefined)
  end.

Definition renameIdentityPair : Handler RenamePayload := λ p st,
  let channelId := rn_channelId p in
  let identityKey := rn_identityKey p in
  let newName := rn_newName p in
  let channel := if truthy channelId then channelById st (default "" channelId) else None in
  let identity := if truthy identityKey then identityByKey st (default "" identityKey) else None in
  if truthy channelId && negb (bool_decide (is_Some channel)) then
    (st, throw (mkError ("Channel not found: " +:+ default "" channelId)))
  else if truthy identityKey && negb (bool_decide (is_Some identity)) then
    (st, throw (mkError ("Identity not found: " +:+ default "" identityKey)))
  else if bool_decide (is_Some (getChannel (channels st) newName)) then
    (st, throw (mkError ("Channel with name: " +:+ dquote +:+ newName +:+ dquote
                           +:+ " already exists")))
  else if bool_decide (is_Some (getIdentity (identities st) newName)) then
    (st, throw (mkError ("Identity with name: " +:+ dquote +:+ newName +:+ dquote
                           +:+ " already exists")))
  else
    match channel with
    | Some c =>
        (set_channels (renameChannel (cref c) newName) st,
         await (SaveChannel (cref c))
           (λ _ st1, (st1, await UpdateBadge
                             (λ _, renameIdentityPair_identity identity newName))))
    | None => renameIdentityPair_identity identity newName st
    end.

(** *** [requestInvite] and [waitForInvite] *)

(** [entry.waiter = w] on the entry object [p], wherever the registry still
    holds it. *)
Definition assignWaiter (p : nat) (w : option nat)
    (m : gmap string PendingInvite) : gmap string PendingInvite :=
  (λ e, if Nat.eqb (pref e) p then with_waiter w e else e) <$> m.

(** The [for (;;)] loop that looks for a suitable channel name, [fuel]
    iterations of it; [None] when it is still running after them. *)
Fixpoint probeChannelName (fuel : nat) (chs : list Channel) (invite : Invite)
    (counter : nat) (channelName : string) : option string :=
  match fuel with
  | 0 => None
  | S fuel' =>
      match getChannel chs channelName with
      | None => Some channelName
      | Some existing =>
          if equals (chan_id existing) (inv_channelPubKey invite) then Some channelName
          else
            let counter := S counter in
            probeChannelName fuel' chs invite counter
              (inv_channelName invite +:+ "-" +:+ pretty counter)
      end
  end.

(** The name the loop holds after [counter] increments: the invite's name,
    then the template string with the counter. *)
Definition candidateName (invite : Invite) (counter : nat) : string :=
  match counter with
  | 0 => inv_channelName invite
  | S _ => inv_channelName invite +:+ "-" +:+ pretty counter
  end.

(** The candidate [j] is the name of a channel with another key. *)
Definition clash (chs : list Channel) (invite : Invite) (j : nat) : Prop :=
  ∃ c, getChannel chs (candidateName invite j) = Some c
       ∧ equals (chan_id c) (inv_channelPubKey invite) = false.

(** The name is free, or names the channel of the invite. *)
Definition suitable (chs : list Channel) (invite : Invite) (name : string) : Prop :=
  getChannel chs name = None
  ∨ ∃ c, getChannel chs name = Some c
         ∧ equals (chan_id c) (inv_channelPubKey invite) = true.

(** The loop leaves within [length chs + 1] iterations (lemma [probe_total]
    below), so the default is never taken. *)
Definition findChannelName (chs : list Channel) (invite : Invite) : string :=
  default (inv_channelName invite)
    (probeChannelName (S (length chs)) chs invite 0 (inv_channelName invite)).

Definition setMetadataIsFeed (c : nat) (b : bool) (chs : list Channel) : list Channel :=
  map (λ x, if Nat.eqb (cref x) c
            then {| cref := cref x; chan_id := chan_id x; chan_publicKey := chan_publicKey x;
                    chan_name := chan_name x; chan_isFeed := chan_isFeed x;
                    chan_metadata := {| readCount := readCount (chan_metadata x);
                                        meta_isFeed := Some b |} |}
            else x) chs.

Section Invites.

(** [bs58.encode], and [identity.requestInvite(peerId)] of the protocol
    library; the number stands for the randomness the library draws. *)
Variable bs58encode : Buffer → string.
Variable issueRequest :
  Identity → Buffer → nat → Buffer * Buffer * (EncryptedInvite → Invite + JSError).

Definition requestInvite : Handler string := λ identityKey st,
  match identityByKey st identityKey with
  | None => (st, throw (mkError ("Identity not found: " +:+ identityKey)))
  | Some identity =>
      match pendingInvites st !! identityKey with
      | Some existing => (st, ret (VRequest (encoded existing)))
      | None =>
          let '(requestId, request, decrypt) :=
            issueRequest identity (peerId st) (nextRef st) in
          let encoded := bs58encode request in
          let entry := {| pref := nextRef st; requestId := requestId;
                          decrypt := decrypt; encoded := encoded; waiter := None |} in
          (set_pendingInvites (insert identityKey entry) (set_nextRef S st),
           ret (VRequest encoded))
      end
  end.

(** After [await this.updateBadge()]: join, start the update loop, clean
    up, serialize. *)
Definition acceptInvite_join (identityKey : string) (channel : Channel)
    (st : Network) : Network * Task :=
  let st1 := set_swarm (Swarm.joinChannel (cref channel)) st in
  let st2 := runUpdateLoop channel None st1 in
  let st3 := set_pendingInvites (delete identityKey) st2 in
  (st3, await (SerializeChannel (cref channel)) (λ ser st4, (st4, ret (VChannel ser)))).

(** After [peerLinks.channelFromInvite]: mark non-feed, persist. *)
Definition acceptInvite_save (identityKey : string) (channel : Channel)
    (st : Network) : Network * Task :=
  (set_channels (setMetadataIsFeed (cref channel) false) st,
   await (SaveChannel (cref channel))
     (λ _ st1, (st1, await UpdateBadge (λ _, acceptInvite_join identityKey channel)))).

(** After [entry.decrypt]: find the name, create or attach the channel. *)
Definition acceptInvite (identityKey : string) (identity : Identity) (invite : Invite)
    (st : Network) : Network * Task :=
  let channelName := findChannelName (channels st) invite in
  (st, await (ChannelFromInvite invite (iref identity) channelName)
         (acceptInvite_save identityKey)).

(** The code after [await entry.waiter], with its [catch] and [finally]. *)
Definition waitForInvite_resume (identityKey : string) (identity : Identity)
    (entry : PendingInvite) (o : Outcome EncryptedInvite) (st : Network)
    : Network * Task :=
  let st' := set_pendingInvites (assignWaiter (pref entry) None) st in   (* [finally] *)
  match o with
  | Rejected _ => (st', ret (VBool false))                               (* [catch] *)
  | Fulfilled encryptedInvite =>
      match decrypt entry encryptedInvite with
      | inr e => (st', throw e)
      | inl invite => acceptInvite identityKey identity invite st'
      end
  end.

Definition waitForInvite : Handler string := λ identityKey st,
  match identityByKey st identityKey with
  | None => (st, throw (mkError ("Identity not found: " +:+ identityKey)))
  | Some identity =>
      match pendingInvites st !! identityKey with
      | None => (st, throw (mkError ("No pending invites for: " +:+ ident_name identity)))
      | Some entry =>
          let sw := match waiter entry with            (* already waiting *)
                    | Some w => Swarm.cancel w (swarm st)
                    | None => swarm st
                    end in
          let '(w, sw') := Swarm.waitForInvite (requestId entry) sw in
          (set_pendingInvites (assignWaiter (pref entry) (Some w))
             (set_swarm (λ _, sw') st),
           Await (SwarmInvite w) (waitForInvite_resume identityKey identity entry))
      end
  end.

End Invites.

(** ** The request router *)

(** The operations [initIPC] registers. *)
Inductive Op :=
  | OpInit | OpErase | OpGetStatus | OpGetChannels | OpGetIdentities
  | OpCreateIdentityPair | OpFeedFromPublicKey | OpRemoveIdentityPair
  | OpUpdateChannelMetadata | OpGetMessageCount | OpGetReverseMessagesAtOffset
  | OpWaitForIncomingMessage | OpPostMessage | OpRequestInvite | OpWaitForInvite
  | OpInvite | OpSendInvite | OpAcceptInvite | OpRenameIdentityPair
  | OpWaitForChainMapUpdate | OpComputeChainMap.

(** The third argument of each [handle(type, handler, requireReady = true)]. *)
Definition requireReady (op : Op) : bool :=
  match op with
  | OpInit | OpErase | OpGetStatus => false
  | _ => true
  end.

(** What [event.reply('response', ...)] sends. *)
Inductive Body :=
  | Payload (payload : Value)
  | Failure (error : string) (stack : option string).

Record Response := { seq : nat; body : Body }.

Definition notReady (seq : nat) : Response :=
  {| seq := seq; body := Failure "Not ready" None |}.

(** The two callbacks of [handler(payload).then(...).catch(...)]. *)
Definition replyTo (seq : nat) (r : Outcome Value) : Response :=
  match r with
  | Fulfilled result => {| seq := seq; body := Payload result |}
  | Rejected err => {| seq := seq; body := Failure (message err) (Some (stack err)) |}
  end.

(** The instance together with the handler invocations in flight, each under
    the [seq] of its request, and the responses sent so far. *)
Record System := {
  net : Network;
  inflight : list (nat * Task);
  outbox : list Response;
}.


(** A handler invocation reached [t] on state [st]: reply if it settled,
    otherwise keep it in flight. *)
Definition track (seq : nat) (st : Network) (t : Task)
    (rest : list (nat * Task)) (sys : System) : System :=
  match t with
  | Fin r => {| net := st; inflight := rest; outbox := outbox sys ++ [replyTo seq r] |}
  | Await _ _ => {| net := st; inflight := rest ++ [(seq, t)]; outbox := outbox sys |}
  end.

(** The listener [handle] installs for one operation. *)
Definition handle {P : Type} (handler : Handler P) (requireReady : bool)
    (seq : nat) (payload : P) (sys : System) : System :=
  if negb (isReady (net sys)) && requireReady then
    {| net := net sys; inflight := inflight sys; outbox := outbox sys ++ [notReady seq] |}
  else
    let '(st, t) := handler payload (net sys) in
    track seq st t (inflight sys) sys.

(** The promise the [i]-th invocation in flight awaits settles, as [env]
    says, and the invocation runs on to its next [await] or to its end. *)
Definition resume (i : nat) (env : Env) (sys : System) : System :=
  match inflight sys !! i with
  | Some (seq, Await a k) =>
      let '(st1, o) := env _ a (net sys) in
      let '(st2, t) := k o st1 in
      track seq st2 t (delete i (inflight sys)) sys
  | _ => sys
  end.

Inductive Event :=
  | Request {P : Type} (op : Op) (handler : Handler P) (seq : nat) (payload : P)
  | Settle (i : nat) (env : Env).

Definition step (sys : System) (e : Event) : System :=
  match e with
  | Request op handler seq payload => handle handler (requireReady op) seq payload sys
  | Settle i env => resume i env sys
  end.

Definition exec (evs : list Event) (sys : System) : System := fold_left step evs sys.

(** How many requests of a trace carry [s], how many responses, and how
    many invocations in flight. *)
Definition isRequest (s : nat) (e : Event) : bool :=
  match e with
  | Request _ _ seq _ => Nat.eqb seq s
  | Settle _ _ => false
  end.

Definition requestsOf (s : nat) (evs : list Event) : nat :=
  length (List.filter (isRequest s) evs).

Definition responsesOf (s : nat) (sys : System) : nat :=
  length (List.filter (λ r, Nat.eqb (seq r) s) (outbox sys)).

Definition inflightOf (s : nat) (sys : System) : nat :=
  length (List.filter (λ p, Nat.eqb (fst p) s) (inflight sys)).

(** How many of its [await]s a task goes through before it settles, the
    awaited promises settling as [env] says. *)
Fixpoint awaitsOf (env : Env) (st : Network) (t : Task) : nat :=
  match t with
  | Fin _ => 0
  | Await a k =>
      let '(st1, o) := env _ a st in
      let '(st2, t') := k o st1 in
      S (awaitsOf env st2 t')
  end.

(** The life of one request when nothing else happens: the request, then
    each promise its handler awaits settling in turn.  The invocation is the
    last in flight, at the index the length of those in flight before it. *)
Definition lifeOf {P : Type} (env : Env) (op : Op) (handler : Handler P) (sq : nat)
    (payload : P) (sys : System) : list Event :=
  Request op handler sq payload
  :: replicate (awaitsOf env (handler payload (net sys)).1 (handler payload (net sys)).2)
       (Settle (length (inflight sys)) env).

(** ** Runs of the update loops *)

(** What happens to the update loops of an instance: some caller starts
    [runUpdateLoop] (at [init], after [createIdentityPair], [feedFromPublicKey]
    or an accepted invite, or the loop itself), an activation resumes from one
    of its two [await]s, the protocol library changes its list of channels,
    [waitForIncomingMessage] unmarks a channel, or any other code runs: it
    may leave every other field of the instance as [st'] has it, but only
    [runUpdateLoop] writes [updateLoops], and objects made meanwhile are new. *)
Inductive LoopEvent :=
  | Start (channel : Channel) (timeout : option nat)
  | EntrySettled (entry : nat) (o : Outcome unit)
  | BadgeSettled (entry : nat) (o : Outcome unit)
  | ChannelsChanged (chs : list Channel)
  | Consumed (channel : nat)
  | Elsewhere (st' : Network).

Definition loopStep (st : Network) (e : LoopEvent) : Network :=
  match e with
  | Start channel timeout => runUpdateLoop channel timeout st
  | EntrySettled entry o => loopEntrySettled entry o st
  | BadgeSettled entry o => loopBadgeSettled entry o st
  | ChannelsChanged chs => set_channels (λ _, chs) st
  | Consumed c => set_updatedChannels (λ s, s ∖ {[c]}) st
  | Elsewhere st' =>
      set_loopTasks (λ _, loopTasks st)
        (set_updateLoops (λ _, updateLoops st)
           (set_nextRef (λ n, n `max` nextRef st) st'))
  end.

Definition loopExec (evs : list LoopEvent) (st : Network) : Network :=
  fold_left loopStep evs st.

(** The activations of [runUpdateLoop] alive for the channel object [c], and
    those of them suspended on the channel's own [waitForIncomingMessage]. *)
Definition activations (c : nat) (st : Network) : list LoopTask :=
  List.filter (λ t, Nat.eqb (cref (lt_channel t)) c) (loopTasks st).

Definition externalWaits (c : nat) (st : Network) : list LoopTask :=
  List.filter (λ t, match lt_phase t with AwaitingEntry => true | AwaitingBadge => false end)
    (activations c st).

Definition taskChannel (t : LoopTask) : nat := cref (lt_channel t).

(** What holds of the registry and the activations between any two steps:
    no two activations for one channel object, a registry entry exactly for
    the channels that have an activation, and entries that are distinct
    objects. *)
Record loops_ok (st : Network) : Prop := {
  ok_single : NoDup (taskChannel <$> loopTasks st);
  ok_registry : ∀ c, is_Some (updateLoops st !! c) ↔ c ∈ taskChannel <$> loopTasks st;
  ok_fresh : ∀ t, t ∈ loopTasks st → lt_entry t < nextRef st;
  ok_entries : NoDup (lt_entry <$> loopTasks st);
}.

(** ** A small instance

    One identity [alice] who owns the channel [general]; used to run the
    handlers on concrete requests. *)

Module Demo.

Definition keyA : Buffer := [Byte.xaa].
Definition keyB : Buffer := [Byte.xbb].
Definition aliceKey : Buffer := [Byte.xa1].

Definition general : Channel :=
  {| cref := 1; chan_id := keyA; chan_publicKey := keyA; chan_name := "general";
     chan_isFeed := false; chan_metadata := {| readCount := None; meta_isFeed := None |} |}.

Definition alice : Identity :=
  {| iref := 1; ident_publicKey := aliceKey; ident_name := "alice" |}.

Definition inviteA : Invite :=
  {| inv_channelName := "general"; inv_channelPubKey := keyA; inv_chain := [] |}.
Definition inviteB : Invite :=
  {| inv_channelName := "general"; inv_channelPubKey := keyB; inv_chain := [] |}.

Definition bs58encode : Buffer → string := toHex.

Definition issueRequest (identity : Identity) (peer : Buffer) (nonce : nat)
    : Buffer * Buffer * (EncryptedInvite → Invite + JSError) :=
  (ident_publicKey identity, ident_publicKey identity ++ peer, λ _, inl inviteB).

(** The instance once [init] is through. *)
Definition ready : Network :=
  {| isReady := true; channels := [general]; identities := [alice]; peerId := [];
     waitList := WaitList.empty; updateLoops := ∅; updatedChannels := ∅;
     chainMapUpdated := false; pendingInvites := ∅; swarm := Swarm.empty;
     loopTasks := []; nextRef := 2 |}.

(** [alice] has requested an invite; then a first [waitForInvite] is
    suspended on its waiter. *)
Definition requested : Network := (requestInvite bs58encode issueRequest "a1" ready).1.
Definition waiting : Network := (waitForInvite "a1" requested).1.

Definition waitingEntry : PendingInvite :=
  {| pref := 2; requestId := aliceKey; decrypt := λ _, inl inviteB;
     encoded := "a1"; waiter := Some 0 |}.

(** The libraries at rest: [removeChannel] and [removeIdentity] take the
    object out of the protocol's lists, every other awaited operation
    fulfils without touching the instance. *)
Definition quiet : Env := λ X a st,
  match a in Awaitable X return Network * Outcome X with
  | RemoveChannel c =>
      (set_channels (List.filter (λ x, negb (Nat.eqb (cref x) c))) st, Fulfilled ())
  | RemoveIdentity i =>
      (set_identities (List.filter (λ x, negb (Nat.eqb (iref x) i))) st, Fulfilled ())
  | SaveChannel _ | SaveIdentity _ | UpdateBadge => (st, Fulfilled ())
  | WaitListEntry _ => (st, Fulfilled (VBool true))
  | SwarmInvite _ => (st, Fulfilled {| box := []; enc_requestId := [] |})
  | ChannelFromInvite invite _ name =>
      (st, Fulfilled {| cref := nextRef st; chan_id := inv_channelPubKey invite;
                        chan_publicKey := inv_channelPubKey invite; chan_name := name;
                        chan_isFeed := false;
                        chan_metadata := {| readCount := None; meta_isFeed := None |} |})
  | SerializeChannel c =>
      (st, Fulfilled {| ser_id := ""; ser_publicKey := ""; ser_publicKeyB58 := "";
                        ser_name := ""; ser_isFeed := false;
                        ser_messageCount := 0; ser_maxHeight := 0 |})
  end.

(** The swarm as its waiters stand: a cancelled wait rejects, any other is
    fulfilled with an invite. *)
Definition delivering : Env := λ X a st,
  match a in Awaitable X return Network * Outcome X with
  | SwarmInvite w =>
      match Swarm.invites (swarm st) !! w with
      | Some (_, Swarm.Cancelled) => (st, Rejected (mkError "Cancelled"))
      | _ => (st, Fulfilled {| box := []; enc_requestId := [] |})
      end
  | a => quiet _ a st
  end.

(** The update loop of [general] is running. *)
Definition looping : Network := loopExec [Start general None] ready.

(** Three [waitForInvite] requests of [alice] in a row; the first resumes
    from its cancelled wait before the third arrives. *)
Definition threeWaits : list Event :=
  [Request OpWaitForInvite waitForInvite 1 "a1";
   Request OpWaitForInvite waitForInvite 2 "a1";
   Settle 0 delivering;
   Request OpWaitForInvite waitForInvite 3 "a1"].

End Demo.

(** ** The rest of the instance *)

Definition set_isReady (b : bool) (st : Network) : Network :=
  {| isReady := b; channels := channels st; identities := identities st;
     peerId := peerId st; waitList := waitList st; updateLoops := updateLoops st;
     updatedChannels := updatedChannels st; chainMapUpdated := chainMapUpdated st;
     pendingInvites := pendingInvites st; swarm := swarm st;
     loopTasks := loopTasks st; nextRef := nextRef st |}.

Definition set_chainMapUpdated (b : bool) (st : Network) : Network :=
  {| isReady := isReady st; channels := channels st; identities := identities st;
     peerId := peerId st; waitList := waitList st; updateLoops := updateLoops st;
     updatedChannels := updatedChannels st; chainMapUpdated := b;
     pendingInvites := pendingInvites st; swarm := swarm st;
     loopTasks := loopTasks st; nextRef := nextRef st |}.

Definition set_peerId (id : Buffer) (st : Network) : Network :=
  {| isReady := isReady st; channels := channels st; identities := identities st;
     peerId := id; waitList := waitList st; updateLoops := updateLoops st;
     updatedChannels := updatedChannels st; chainMapUpdated := chainMapUpdated st;
     pendingInvites := pendingInvites st; swarm := swarm st;
     loopTasks := loopTasks st; nextRef := nextRef st |}.

(** *** Serializers *)

(** The record [serializeChannel] returns, with its [metadata]. *)
Record ChannelRecord := {
  cr_id : string; cr_publicKey : string; cr_publicKeyB58 : string;
  cr_name : string; cr_isFeed : bool; cr_metadata : ChanMeta;
  cr_messageCount : nat; cr_maxHeight : nat;
}.

(** The record [serializeIdentity] returns. *)
Record IdentityRecord (M : Type) := {
  ir_name : string; ir_publicKey : string; ir_publicKeyB58 : string;
  ir_channelIds : list string; ir_metadata : M;
}.
Arguments ir_name {M} _.
Arguments ir_publicKey {M} _.
Arguments ir_publicKeyB58 {M} _.
Arguments ir_channelIds {M} _.
Arguments ir_metadata {M} _.

Section Serializer.

(** [bs58.encode]; and, of the protocol library, [identity.getChannelIds()]
    and [identity.getMetadata()] with the empty object [{}]. *)
Variable bs58encode : Buffer → string.
Variable M : Type.
Variable getChannelIds : Identity → list Buffer.
Variable getMetadata : Identity → option M.
Variable emptyObject : M.

Definition serializeIdentity (identity : Identity) : IdentityRecord M :=
  {| ir_name := ident_name identity;
     ir_publicKey := toHex (ident_publicKey identity);
     ir_publicKeyB58 := bs58encode (ident_publicKey identity);
     ir_channelIds := map toHex (getChannelIds identity);
     ir_metadata := default emptyObject (getMetadata identity) |}.

(** [serializeChannel], given what its two reads of the channel fulfilled
    with: the first element of [getReverseMessagesAtOffset(0)], if any, by
    its height, and the message count. *)
Definition serializeChannel (channel : Channel) (last : option nat) (messageCount : nat)
    : ChannelRecord :=
  {| cr_id := toHex (chan_id channel);
     cr_publicKey := toHex (chan_publicKey channel);
     cr_publicKeyB58 := bs58encode (chan_publicKey channel);
     cr_name := chan_name channel;
     cr_isFeed := chan_isFeed channel;
     cr_metadata := chan_metadata channel;
     cr_messageCount := messageCount;
     cr_maxHeight := match last with Some height => height | None => 0 end |}.

End Serializer.

(** *** The badge *)

(** [(channel.metadata && channel.metadata.readCount) || 0] *)
Definition readCountOf (channel : Channel) : Z :=
  match readCount (chan_metadata channel) with
  | Some n => n
  | None => 0
  end.

(** What one channel adds to the badge. *)
Definition unreadOf (messageCount : nat) (channel : Channel) : Z :=
  Z.max (Z.of_nat messageCount - readCountOf channel) 0.

(** The loop of [updateBadge] over the channels left, [unread] being the sum
    so far; [getMessageCount] says how the read of a channel object settles. *)
Fixpoint countUnread (getMessageCount : nat → Outcome nat) (chs : list Channel)
    (unread : Z) : Outcome Z :=
  match chs with
  | [] => Fulfilled unread
  | channel :: rest =>
      match getMessageCount (cref channel) with
      | Rejected e => Rejected e
      | Fulfilled messageCount =>
          countUnread getMessageCount rest (unread + unreadOf messageCount channel)%Z
      end
  end.

(** [updateBadge]: fulfilled with the number it gave to [setBadgeCount], or
    rejected before calling it. *)
Definition updateBadge (getMessageCount : nat → Outcome nat) (st : Network) : Outcome Z :=
  countUnread getMessageCount (channels st) 0.

(** *** [updateChannelMetadata] *)

Record MetadataPayload := { um_channelId : string; um_metadata : ChanMeta }.

(** [{ ...old, ...new }] *)
Definition mergeMeta (old new : ChanMeta) : ChanMeta :=
  {| readCount := match readCount new with Some n => Some n | None => readCount old end;
     meta_isFeed := match meta_isFeed new with Some b => Some b | None => meta_isFeed old end |}.

(** [channel.setMetadata(m)] on the channel object [c]. *)
Definition setMetadata (c : nat) (m : ChanMeta) (chs : list Channel) : list Channel :=
  map (λ x, if Nat.eqb (cref x) c
            then {| cref := cref x; chan_id := chan_id x; chan_publicKey := chan_publicKey x;
                    chan_name := chan_name x; chan_isFeed := chan_isFeed x;
                    chan_metadata := m |}
            else x) chs.

Definition updateChannelMetadata : Handler MetadataPayload := λ p st,
  match channelById st (um_channelId p) with
  | None => (st, throw (mkError ("Channel not found: " +:+ um_channelId p)))
  | Some channel =>
      (set_channels
         (setMetadata (cref channel) (mergeMeta (chan_metadata channel) (um_metadata p))) st,
       await (SaveChannel (cref channel))
         (λ _ st1, (st1, await UpdateBadge (λ _ st2, (st2, ret VUndefined)))))
  end.

(** *** The chain map *)

Definition chainTopic : string := "chain-map-update".

Definition waitForChainMapUpdate : Handler (option nat) := λ timeout st,
  if chainMapUpdated st then (set_chainMapUpdated false st, ret VUndefined)
  else
    let '(w, wl) := WaitList.waitFor chainTopic timeout (waitList st) in
    (set_waitList (λ _, wl) st,
     await (WaitListEntry w) (λ _ st', (set_chainMapUpdated false st', ret VUndefined))).

(** One turn of the [for (;;)] of [runChainLoop]: the awaited
    [peerLinks.waitForChainMapUpdate()] settles with [o]; the result says
    whether the loop goes round again. *)
Definition runChainLoop_turn (o : Outcome bool) (st : Network) : Network * bool :=
  match o with
  | Rejected _ => (st, false)                                  (* [catch]: [break] *)
  | Fulfilled false => (st, true)                              (* [continue] *)
  | Fulfilled true =>
      (set_waitList (WaitList.resolve chainTopic VUndefined)
         (set_chainMapUpdated true st), true)
  end.

(** *** [init] *)

(** The protocol object the [init] waiter is resolved with. *)
Record PeerLinks := {
  pl_channels : list Channel;
  pl_identities : list Identity;
  pl_id : Buffer;
}.

(** [init()] from the point where [this.waitList.waitFor('init')] has handed
    it the protocol object: the loops, the swarm, the [ready] broadcast and
    the flag.  ([runChainLoop] suspends at once, leaving the instance as it is.) *)
Definition init_resume (peerLinks : PeerLinks) (st : Network) : Network :=
  let st1 := set_peerId (pl_id peerLinks)
               (set_identities (λ _, pl_identities peerLinks)
                  (set_channels (λ _, pl_channels peerLinks) st)) in
  let st2 := fold_left (λ s channel, runUpdateLoop channel None s) (channels st1) st1 in
  let st3 := set_swarm (λ _, Swarm.empty) st2 in
  let st4 := set_waitList (WaitList.resolve "ready" VUndefined) st3 in
  set_isReady true st4.

(** *** Quantities the properties speak of *)

(** The unread messages of a list of channels whose message counts are [mc]. *)
Definition totalUnread (mc : nat → nat) (chs : list Channel) : Z :=
  foldr (λ channel acc, unreadOf (mc (cref channel)) channel + acc)%Z 0%Z chs.

(** All the messages of a list of channels. *)
Definition totalMessages (mc : nat → nat) (chs : list Channel) : Z :=
  foldr (λ channel acc, Z.of_nat (mc (cref channel)) + acc)%Z 0%Z chs.

(** A read of the message count that always fulfils. *)
Definition counts (mc : nat → nat) : nat → Outcome nat := λ c, Fulfilled (mc c).

Definition withMetadata (m : ChanMeta) (x : Channel) : Channel :=
  {| cref := cref x; chan_id := chan_id x; chan_publicKey := chan_publicKey x;
     chan_name := chan_name x; chan_isFeed := chan_isFeed x; chan_metadata := m |}.

(** *** Two more channels *)

Module Sample.

Definition news : Channel :=
  {| cref := 5; chan_id := [Byte.x01]; chan_publicKey := [Byte.x01]; chan_name := "news";
     chan_isFeed := true; chan_metadata := {| readCount := Some 7%Z; meta_isFeed := None |} |}.

Definition random : Channel :=
  {| cref := 6; chan_id := [Byte.x02]; chan_publicKey := [Byte.x02]; chan_name := "random";
     chan_isFeed := false; chan_metadata := {| readCount := Some 3%Z; meta_isFeed := None |} |}.

(** [news] has ten messages, every other channel three. *)
Definition messageCounts (c : nat) : nat := if Nat.eqb c 5 then 10 else 3.

(** Reading the messages of [random] fails. *)
Definition brokenRandom (c : nat) : Outcome nat :=
  if Nat.eqb c 6 then Rejected (mkError "Database is closed")
  else Fulfilled (messageCounts c).

Definition two : Network := set_channels (λ _, [news; random]) Demo.ready.

(** [random] after an [updateChannelMetadata] that stored a read count of -5. *)
Definition overdrawn : Network :=
  (updateChannelMetadata
     {| um_channelId := "02";
        um_metadata := {| readCount := Some (-5)%Z; meta_isFeed := None |} |}
     (set_channels (λ _, [random]) Demo.ready)).1.

(** The libraries when an invite arrives: the swarm fulfils the wait, and
    [channelFromInvite] attaches to the channel that has the invite's key as
    its id, or else lists a new channel under the name it is given; the
    serializer reports the name the object has. *)
Definition accepting : Env := λ X a st,
  match a in Awaitable X return Network * Outcome X with
  | ChannelFromInvite invite _ name =>
      match find (λ c, equals (chan_id c) (inv_channelPubKey invite)) (channels st) with
      | Some existing => (st, Fulfilled existing)
      | None =>
          let created :=
            {| cref := nextRef st; chan_id := inv_channelPubKey invite;
               chan_publicKey := inv_channelPubKey invite; chan_name := name;
               chan_isFeed := false;
               chan_metadata := {| readCount := None; meta_isFeed := None |} |} in
          (set_nextRef S (set_channels (λ chs, chs ++ [created]) st), Fulfilled created)
      end
  | SerializeChannel c =>
      match find (λ x, Nat.eqb (cref x) c) (channels st) with
      | Some x =>
          (st, Fulfilled {| ser_id := toHex (chan_id x); ser_publicKey := toHex (chan_publicKey x);
                            ser_publicKeyB58 := toHex (chan_publicKey x);
                            ser_name := chan_name x; ser_isFeed := chan_isFeed x;
                            ser_messageCount := 0; ser_maxHeight := 0 |})
      | None => (st, Rejected (mkError "No such channel"))
      end
  | a => Demo.quiet _ a st
  end.

(** The entry of [alice] when the invite she is sent is for key A. *)
Definition entryA : PendingInvite :=
  {| pref := 2; requestId := Demo.aliceKey; decrypt := λ _, inl Demo.inviteA;
     encoded := "a1"; waiter := Some 0 |}.

Definition arrived : EncryptedInvite := {| box := []; enc_requestId := Demo.aliceKey |}.

(** [waitForInvite] of [alice] from the arrival of the invite to its end. *)
Definition acceptedWith (entry : PendingInvite) : Network * Outcome Value :=
  let '(st, t) :=
    waitForInvite_resume "a1" Demo.alice entry (Fulfilled arrived) Demo.waiting in
  runTask accepting st t.

Definition nameOf (r : Outcome Value) : option string :=
  match r with
  | Fulfilled (VChannel c) => Some (ser_name c)
  | _ => None
  end.

(** A caller waits for the chain map. *)
Definition chainWaiting : Network := (waitForChainMapUpdate (Some 100) Demo.ready).1.

(** The update loop of [general] has woken up and is in [updateBadge]. *)
Definition woken : Network :=
  loopExec [Start Demo.general None; EntrySettled 2 (Fulfilled ())] Demo.ready.

(** [woken] after the front end counted one message of [general] as read:
    the listed object now differs from the one the loop started with. *)
Definition wokenRead : Network :=
  (updateChannelMetadata
     {| um_channelId := "aa";
        um_metadata := {| readCount := Some 1%Z; meta_isFeed := None |} |} woken).1.

Definition generalRead : Channel :=
  withMetadata {| readCount := Some 1%Z; meta_isFeed := None |} Demo.general.

(** What [init] is handed for a database with the two channels. *)
Definition loaded : PeerLinks :=
  {| pl_channels := [news; random]; pl_identities := [Demo.alice]; pl_id := [Byte.x07] |}.

(** The activation of [general] in [woken], and in [Demo.looping]. *)
Definition wokenTask : LoopTask :=
  {| lt_channel := Demo.general; lt_timeout := None; lt_entry := 2;
     lt_phase := AwaitingBadge |}.

Definition loopingTask : LoopTask :=
  {| lt_channel := Demo.general; lt_timeout := None; lt_entry := 2;
     lt_phase := AwaitingEntry |}.

End Sample.

(** * Properties *)

(** ** Hex spelling *)

Section HexFacts.

Lemma fromHex_cons (x : byte) (s : string) :
fromHex (String (digit (Byte.to_N x / 16))
           (String (digit (Byte.to_N x mod 16)) s)) = x :: fromHex s.
Proof. destruct x; reflexivity. Qed.

Lemma fromHex_toHex (b : Buffer) : fromHex (toHex b) = b.
Proof.
induction b as [|x r IH]; [reflexivity|].
cbn [toHex]. rewrite fromHex_cons. by rewrite IH.
Qed.

Lemma equals_refl (b : Buffer) : equals b b = true.
Proof. unfold equals. by apply bool_decide_eq_true. Qed.

Lemma to_N_inj (a b : byte) : Byte.to_N a = Byte.to_N b → a = b.
Proof.
intros H.
assert (Byte.of_N (Byte.to_N a) = Byte.of_N (Byte.to_N b)) as E by (by rewrite H).
rewrite !Byte.of_to_N in E. congruence.
Qed.

Lemma equals_eq (a b : Buffer) : equals a b = true ↔ a = b.
Proof.
unfold equals. rewrite bool_decide_eq_true. split; [|by intros ->].
revert b. induction a as [|x a IH]; intros [|y b] H; try done.
simpl in H. injection H as Hx Hr. f_equal; [by apply to_N_inj | by apply IH].
Qed.

End HexFacts.

(** ** The router *)

Section RouterFacts.

Lemma count_snoc {A : Type} (f : A → bool) (l : list A) (x : A) :
length (List.filter f (l ++ [x])) = length (List.filter f l) + (if f x then 1 else 0).
Proof.
rewrite List.filter_app, length_app. simpl. by destruct (f x).
Qed.

Lemma count_delete {A : Type} (f : A → bool) (l : list A) (i : nat) (x : A) :
l !! i = Some x →
length (List.filter f (delete i l)) + (if f x then 1 else 0) = length (List.filter f l).
Proof.
revert i. induction l as [|y l IH]; intros [|i] H; simpl in *; try done.
- injection H as ->. destruct (f x); simpl; lia.
- specialize (IH i H). destruct (f y); simpl; lia.
Qed.

Lemma track_counts (s sq : nat) (st : Network) (t : Task) (rest : list (nat * Task))
  (sys : System) :
inflightOf s (track sq st t rest sys) + responsesOf s (track sq st t rest sys)
= length (List.filter (λ p, Nat.eqb (fst p) s) rest) + responsesOf s sys
  + (if Nat.eqb sq s then 1 else 0).
Proof.
unfold inflightOf, responsesOf. destruct t as [r|X a k]; simpl.
- rewrite count_snoc. destruct r; simpl; lia.
- rewrite count_snoc. simpl. lia.
Qed.

Lemma step_counts (s : nat) (sys : System) (e : Event) :
inflightOf s (step sys e) + responsesOf s (step sys e)
= inflightOf s sys + responsesOf s sys + (if isRequest s e then 1 else 0).
Proof.
destruct e as [P op handler sq payload | i env]; simpl.
- unfold handle. destruct (negb (isReady (net sys)) && requireReady op).
  + unfold inflightOf, responsesOf. simpl. rewrite count_snoc. simpl. lia.
  + destruct (handler payload (net sys)) as [st t]. by rewrite track_counts.
- unfold resume. destruct (inflight sys !! i) as [[sq [r|X a k]]|] eqn:Hi; try lia.
  destruct (env X a (net sys)) as [st1 o]. destruct (k o st1) as [st2 t].
  rewrite track_counts.
  pose proof (count_delete (λ p : nat * Task, Nat.eqb (fst p) s) _ _ _ Hi) as Hd.
  simpl in Hd. unfold inflightOf. lia.
Qed.

Lemma exec_counts (s : nat) (evs : list Event) (sys : System) :
inflightOf s (exec evs sys) + responsesOf s (exec evs sys)
= inflightOf s sys + responsesOf s sys + requestsOf s evs.
Proof.
revert sys. induction evs as [|e evs IH]; intros sys.
- unfold requestsOf. simpl. lia.
- unfold exec in *. simpl. rewrite IH, step_counts.
  unfold requestsOf. simpl. destruct (isRequest s e); simpl; lia.
Qed.

End RouterFacts.

Section RouterLife.

Lemma delete_last {A : Type} (l : list A) (x : A) : delete (length l) (l ++ [x]) = l.
Proof. induction l as [|y l IH]; simpl; [done|]. by rewrite IH. Qed.

Lemma lookup_last {A : Type} (l : list A) (x : A) : (l ++ [x]) !! length l = Some x.
Proof. induction l as [|y l IH]; simpl; done. Qed.

(** An invocation that is the last in flight, driven to its end. *)
Lemma drive (env : Env) (sq : nat) (rest : list (nat * Task)) :
  ∀ (t : Task) (st : Network) (sys : System),
    exec (replicate (awaitsOf env st t) (Settle (length rest) env)) (track sq st t rest sys)
    = {| net := (runTask env st t).1; inflight := rest;
         outbox := outbox sys ++ [replyTo sq (runTask env st t).2] |}.
Proof.
  fix IH 1. intros [r|X a k] st sys.
  - reflexivity.
  - simpl. destruct (env X a st) as [st1 o] eqn:He.
    destruct (k o st1) as [st2 t'] eqn:Hk. simpl.
    unfold resume. simpl. rewrite lookup_last, He, Hk, delete_last.
    specialize (IH t' st2 {| net := st; inflight := rest ++ [(sq, Await a k)];
                            outbox := outbox sys |}).
    simpl in IH. unfold exec in IH.
    destruct t'; exact IH.
Qed.

End RouterLife.

(** C5.  Every request gets exactly one response under its own sequence
    number.  Along any run of the router, from any system, the requests
    received under a sequence number are matched one for one by the new
    responses sent under it and the new invocations in flight under it.
    Each step does one of these and nothing else: a handler that settles, at
    the request or when it resumes, leaves the invocations in flight and adds
    the response [replyTo] builds from the way it settled, its value or the
    message of the error it threw or rejected with; a handler that suspends,
    at the request or again when it resumes, is kept in flight under its
    sequence number with the code it has left, and nothing is sent.  So a
    request whose handler goes through any number of [await]s ends with the
    one response built from what the handler, run to its end, settled with. *)
Theorem router_one_response_per_request :
  (∀ (evs : list Event) (sys : System) (s : nat),
     inflightOf s (exec evs sys) + responsesOf s (exec evs sys)
     = inflightOf s sys + responsesOf s sys + requestsOf s evs)
  ∧ (∀ (P : Type) (op : Op) (handler : Handler P) (sq : nat) (payload : P)
       (sys : System) (st : Network) (r : Outcome Value),
       negb (isReady (net sys)) && requireReady op = false →
       handler payload (net sys) = (st, Fin r) →
       step sys (Request op handler sq payload)
       = {| net := st; inflight := inflight sys;
            outbox := outbox sys ++ [replyTo sq r] |})
  ∧ (∀ (i : nat) (env : Env) (sys : System) (sq : nat) (X : Type) (a : Awaitable X)
       (k : Outcome X → Network → Network * Task) (st1 st2 : Network)
       (o : Outcome X) (r : Outcome Value),
       inflight sys !! i = Some (sq, Await a k) →
       env X a (net sys) = (st1, o) →
       k o st1 = (st2, Fin r) →
       step sys (Settle i env)
       = {| net := st2; inflight := delete i (inflight sys);
            outbox := outbox sys ++ [replyTo sq r] |})
  ∧ (∀ (sq : nat) (v : Value) (e : JSError),
       replyTo sq (Fulfilled v) = {| seq := sq; body := Payload v |}
       ∧ replyTo sq (Rejected e)
         = {| seq := sq; body := Failure (message e) (Some (stack e)) |})
  ∧ (∀ (P : Type) (op : Op) (handler : Handler P) (sq : nat) (payload : P)
       (sys : System) (st : Network) (X : Type) (a : Awaitable X)
       (k : Outcome X → Network → Network * Task),
       negb (isReady (net sys)) && requireReady op = false →
       handler payload (net sys) = (st, Await a k) →
       step sys (Request op handler sq payload)
       = {| net := st; inflight := inflight sys ++ [(sq, Await a k)];
            outbox := outbox sys |})
  ∧ (∀ (i : nat) (env : Env) (sys : System) (sq : nat) (X : Type) (a : Awaitable X)
       (k : Outcome X → Network → Network * Task) (st1 st2 : Network)
       (o : Outcome X) (X' : Type) (a' : Awaitable X')
       (k' : Outcome X' → Network → Network * Task),
       inflight sys !! i = Some (sq, Await a k) →
       env X a (net sys) = (st1, o) →
       k o st1 = (st2, Await a' k') →
       step sys (Settle i env)
       = {| net := st2; inflight := delete i (inflight sys) ++ [(sq, Await a' k')];
            outbox := outbox sys |})
  ∧ (∀ (i : nat) (env : Env) (sys : System),
       inflight sys !! i = None → step sys (Settle i env) = sys)
  ∧ (∀ (P : Type) (env : Env) (op : Op) (handler : Handler P) (sq : nat) (payload : P)
       (sys : System),
       negb (isReady (net sys)) && requireReady op = false →
       exec (lifeOf env op handler sq payload sys) sys
       = {| net := (runHandler env handler payload (net sys)).1;
            inflight := inflight sys;
            outbox := outbox sys
                      ++ [replyTo sq (runHandler env handler payload (net sys)).2] |}).
Proof.
  split; [|split; [|split; [|split; [|split; [|split; [|split]]]]]].
  - intros evs sys s. apply exec_counts.
  - intros P op handler sq payload sys st r Hgate Hh. simpl. unfold handle.
    rewrite Hgate, Hh. reflexivity.
  - intros i env sys sq X a k st1 st2 o r Hi He Hk. simpl. unfold resume.
    rewrite Hi, He, Hk. reflexivity.
  - intros sq v e. split; reflexivity.
  - intros P op handler sq payload sys st X a k Hgate Hh. simpl. unfold handle.
    rewrite Hgate, Hh. reflexivity.
  - intros i env sys sq X a k st1 st2 o X' a' k' Hi He Hk. simpl. unfold resume.
    rewrite Hi, He, Hk. reflexivity.
  - intros i env sys Hi. simpl. unfold resume. by rewrite Hi.
  - intros P env op handler sq payload sys Hgate.
    unfold lifeOf, runHandler, exec. simpl. unfold handle. rewrite Hgate.
    destruct (handler payload (net sys)) as [st t]. simpl.
    apply (drive env sq (inflight sys) t st sys).
Qed.

Lemma router_one_response_per_request_witness :
  let sys := {| net := Demo.waiting; inflight := []; outbox := [] |} in
  let p := {| rm_channelId := "aa"; rm_identityKey := "a1" |} in
  negb (isReady (net sys)) && requireReady OpRemoveIdentityPair = false
  ∧ lifeOf Demo.quiet OpRemoveIdentityPair removeIdentityPair 7 p sys
    = [Request OpRemoveIdentityPair removeIdentityPair 7 p;
       Settle 0 Demo.quiet; Settle 0 Demo.quiet; Settle 0 Demo.quiet]
  ∧ outbox (exec (lifeOf Demo.quiet OpRemoveIdentityPair removeIdentityPair 7 p sys) sys)
    = [{| seq := 7; body := Payload VUndefined |}]
  ∧ inflight (exec (lifeOf Demo.quiet OpRemoveIdentityPair removeIdentityPair 7 p sys) sys)
    = [].
Proof.
  intros sys p. split; [reflexivity|]. split; [reflexivity|].
  destruct router_one_response_per_request as (_ & _ & _ & _ & _ & _ & _ & Hlife).
  rewrite (Hlife RemovePayload Demo.quiet OpRemoveIdentityPair removeIdentityPair 7 p sys
             eq_refl).
  split; [vm_compute; reflexivity | reflexivity].
Defined.


(** ** Renaming *)

Section RenameFacts.

Lemma getChannel_taken (chs : list Channel) (name : string) (c : Channel) :
c ∈ chs → chan_name c = name → is_Some (getChannel chs name).
Proof.
intros Hin Hname. unfold getChannel.
destruct (find _ chs) as [x|] eqn:Hf; [by eexists|].
apply list_elem_of_In in Hin.
pose proof (find_none _ _ Hf c Hin) as Hno. simpl in Hno.
rewrite Hname, String.eqb_refl in Hno. discriminate.
Qed.

Lemma getIdentity_taken (ids : list Identity) (name : string) (i : Identity) :
i ∈ ids → ident_name i = name → is_Some (getIdentity ids name).
Proof.
intros Hin Hname. unfold getIdentity.
destruct (find _ ids) as [x|] eqn:Hf; [by eexists|].
apply list_elem_of_In in Hin.
pose proof (find_none _ _ Hf i Hin) as Hno. simpl in Hno.
rewrite Hname, String.eqb_refl in Hno. discriminate.
Qed.

End RenameFacts.

(** C10.  When the new name is already the name of a channel or of an
    identity, [renameIdentityPair] rejects with an error before its first
    [await] and leaves the instance exactly as it found it: no channel and no
    identity is renamed. *)
Theorem rename_to_taken_name_fails (p : RenamePayload) (st : Network) :
  (∃ c, c ∈ channels st ∧ chan_name c = rn_newName p)
  ∨ (∃ i, i ∈ identities st ∧ ident_name i = rn_newName p) →
  ∃ e : JSError, renameIdentityPair p st = (st, Fin (Rejected e)).
Proof.
  intros Htaken. unfold renameIdentityPair, throw.
  destruct (truthy (rn_channelId p) && _); [by eexists|].
  destruct (truthy (rn_identityKey p) && _); [by eexists|].
  case_bool_decide as Hc; [by eexists|].
  case_bool_decide as Hi; [by eexists|].
  destruct Htaken as [(c & Hin & Hn) | (i & Hin & Hn)].
  - destruct Hc. by eapply getChannel_taken.
  - destruct Hi. by eapply getIdentity_taken.
Qed.

Lemma rename_to_taken_name_fails_witness :
  let p := {| rn_channelId := Some "aa"; rn_identityKey := Some "a1";
              rn_newName := "alice" |} in
  ((∃ c, c ∈ channels Demo.ready ∧ chan_name c = rn_newName p)
   ∨ (∃ i, i ∈ identities Demo.ready ∧ ident_name i = rn_newName p))
  ∧ ∃ e : JSError, renameIdentityPair p Demo.ready = (Demo.ready, Fin (Rejected e)).
Proof.
  assert (Demo.alice ∈ identities Demo.ready) as Hin
    by (apply list_elem_of_In; simpl; by left).
  split.
  - right. exists Demo.alice. by split.
  - apply rename_to_taken_name_fails. right. exists Demo.alice. by split.
Defined.

(** ** Invites *)

Section InviteFacts.

Variable bs58encode : Buffer → string.
Variable issueRequest :
  Identity → Buffer → nat → Buffer * Buffer * (EncryptedInvite → Invite + JSError).

Lemma requestInvite_cached (identityKey : string) (st : Network)
    (existing : PendingInvite) :
  is_Some (identityByKey st identityKey) →
  pendingInvites st !! identityKey = Some existing →
  requestInvite bs58encode issueRequest identityKey st
  = (st, ret (VRequest (encoded existing))).
Proof.
  intros [identity Hid] Hp. unfold requestInvite. by rewrite Hid, Hp.
Qed.

(** C8.  For an identity the instance knows: when the registry holds an
    entry under the identity key, [requestInvite] resolves with the
    [encoded] request of that entry and changes nothing, so no new request
    is issued; and a second call right after a first one resolves with the
    same request as the first and leaves the instance as the first left it. *)
Theorem requestInvite_idempotent (identityKey : string) (st : Network) :
  is_Some (identityByKey st identityKey) →
  (∀ existing : PendingInvite,
     pendingInvites st !! identityKey = Some existing →
     requestInvite bs58encode issueRequest identityKey st
     = (st, Fin (Fulfilled (VRequest (encoded existing)))))
  ∧ (∃ (st1 : Network) (request : string),
       requestInvite bs58encode issueRequest identityKey st
       = (st1, Fin (Fulfilled (VRequest request)))
       ∧ requestInvite bs58encode issueRequest identityKey st1
         = (st1, Fin (Fulfilled (VRequest request)))).
Proof.
  intros Hid. split.
  - intros existing Hp. by apply requestInvite_cached.
  - destruct (pendingInvites st !! identityKey) as [existing|] eqn:Hp.
    + exists st, (encoded existing).
      split; by apply requestInvite_cached.
    + destruct Hid as [identity Hid].
      unfold requestInvite at 1. rewrite Hid, Hp.
      destruct (issueRequest identity (peerId st) (nextRef st))
        as [[requestId request] decrypt] eqn:Hissue.
      eexists _, _. split; [reflexivity|].
      unfold requestInvite, identityByKey in *. simpl. rewrite Hid.
      by rewrite lookup_insert_eq.
Qed.

End InviteFacts.

Lemma requestInvite_idempotent_witness :
  is_Some (identityByKey Demo.ready "a1")
  ∧ ∃ (st1 : Network) (request : string),
      requestInvite Demo.bs58encode Demo.issueRequest "a1" Demo.ready
      = (st1, Fin (Fulfilled (VRequest request)))
      ∧ requestInvite Demo.bs58encode Demo.issueRequest "a1" st1
        = (st1, Fin (Fulfilled (VRequest request))).
Proof.
  assert (is_Some (identityByKey Demo.ready "a1")) as Hid by (by eexists).
  split; [exact Hid|].
  exact (proj2 (requestInvite_idempotent Demo.bs58encode Demo.issueRequest
                  "a1" Demo.ready Hid)).
Defined.

(** *** Finding the channel name *)

Section ChannelName.

Variable chs : list Channel.
Variable invite : Invite.

Lemma probe_found (fuel counter : nat) (r : string) :
  probeChannelName fuel chs invite counter (candidateName invite counter) = Some r →
  ∃ k, counter ≤ k ∧ r = candidateName invite k
       ∧ (∀ j, counter ≤ j < k → clash chs invite j) ∧ suitable chs invite r.
Proof.
  revert counter. induction fuel as [|fuel IH]; intros counter H; [done|].
  simpl in H.
  destruct (getChannel chs (candidateName invite counter)) as [c|] eqn:Hget.
  - destruct (equals (chan_id c) (inv_channelPubKey invite)) eqn:Heq.
    + injection H as <-. exists counter.
      split; [lia|]. split; [done|]. split; [intros j Hj; lia|].
      right. by exists c.
    + apply (IH (S counter)) in H as (k & Hk & -> & Hclash & Hsuit).
      exists k. split; [lia|]. split; [done|]. split; [|done].
      intros j Hj. destruct (decide (j = counter)) as [->|Hne].
      * by exists c.
      * apply Hclash. lia.
  - injection H as <-. exists counter.
    split; [lia|]. split; [done|]. split; [intros j Hj; lia|].
    by left.
Qed.

Lemma probe_running (fuel counter : nat) :
  probeChannelName fuel chs invite counter (candidateName invite counter) = None →
  ∀ j, counter ≤ j < counter + fuel →
       is_Some (getChannel chs (candidateName invite j)).
Proof.
  revert counter. induction fuel as [|fuel IH]; intros counter H j Hj; [lia|].
  simpl in H.
  destruct (getChannel chs (candidateName invite counter)) as [c|] eqn:Hget; [|done].
  destruct (equals (chan_id c) (inv_channelPubKey invite)); [done|].
  destruct (decide (j = counter)) as [->|Hne]; [by rewrite Hget|].
  apply (IH (S counter)); [done|lia].
Qed.

Lemma app_same_prefix (a b : string) : a = a +:+ b → b = "".
Proof.
  induction a as [|x a IH]; simpl; [done|].
  intros H. injection H as H. by apply IH.
Qed.

Lemma candidateName_inj : Inj (=) (=) (candidateName invite).
Proof.
  intros [|a] [|b] H; simpl in H; [done| | |].
  - by apply app_same_prefix in H.
  - symmetry in H. by apply app_same_prefix in H.
  - apply (inj (String.app _)), (inj (String.app _)) in H.
    by apply (inj pretty) in H.
Qed.

Lemma getChannel_name (name : string) (c : Channel) :
  getChannel chs name = Some c → c ∈ chs ∧ chan_name c = name.
Proof.
  intros H. apply find_some in H as [Hin Heq]. split.
  - by apply list_elem_of_In.
  - by apply String.eqb_eq.
Qed.

Lemma probe_total :
  is_Some (probeChannelName (S (length chs)) chs invite 0 (inv_channelName invite)).
Proof.
  destruct (probeChannelName _ _ _ _ _) as [r|] eqn:H; [by eexists|].
  pose proof (probe_running (S (length chs)) 0 H) as Htaken.
  assert (length (candidateName invite <$> List.seq 0 (S (length chs)))
          ≤ length (chan_name <$> chs)) as Hlen.
  { apply submseteq_length, NoDup_submseteq.
    - apply (@NoDup_fmap_2 _ _ _ candidateName_inj), NoDup_seq.
    - intros name (j & -> & Hj%elem_of_seq)%list_elem_of_fmap.
      destruct (Htaken j Hj) as [c Hc].
      apply getChannel_name in Hc as [Hin <-].
      by apply list_elem_of_fmap_2. }
  rewrite !length_fmap, length_seq in Hlen. lia.
Qed.

Lemma findChannelName_found :
  probeChannelName (S (length chs)) chs invite 0 (inv_channelName invite)
  = Some (findChannelName chs invite).
Proof.
  unfold findChannelName. by destruct probe_total as [r ->].
Qed.

End ChannelName.

(** C6.  The loop of [waitForInvite] that looks for a channel name ends, and
    the name it ends with is the first of the invite's name, name-1, name-2,
    ... that is either no channel's name or the name of a channel whose id
    equals the invite's channel key; every candidate before it names a
    channel with another id.  When the awaited invite arrives and decrypts,
    the handler clears its waiter and its next step is the call of
    [channelFromInvite] with the invite, the identity and that name, found
    among the channels of that moment.  With the single channel [general] of
    key A, an invite for [general] with key B gets [general-1]: run to its
    end the handler leaves the channels [general] and [general-1] and
    resolves with the latter; an invite with key A gets [general], the
    channels stay [general] alone and the handler resolves with it. *)
Theorem channel_name_probing :
  (∀ (chs : list Channel) (invite : Invite),
     ∃ k, findChannelName chs invite = candidateName invite k
          ∧ (∀ j, j < k → clash chs invite j)
          ∧ suitable chs invite (findChannelName chs invite))
  ∧ (∀ (identityKey : string) (identity : Identity) (entry : PendingInvite)
       (encryptedInvite : EncryptedInvite) (invite : Invite) (st : Network),
       decrypt entry encryptedInvite = inl invite →
       let st' := set_pendingInvites (assignWaiter (pref entry) None) st in
       waitForInvite_resume identityKey identity entry (Fulfilled encryptedInvite) st
       = (st', await (ChannelFromInvite invite (iref identity)
                        (findChannelName (channels st') invite))
                 (acceptInvite_save identityKey)))
  ∧ findChannelName [Demo.general] Demo.inviteB = "general-1"
  ∧ findChannelName [Demo.general] Demo.inviteA = "general"
  ∧ (chan_name <$> channels (Sample.acceptedWith Demo.waitingEntry).1
     = ["general"; "general-1"]
     ∧ Sample.nameOf (Sample.acceptedWith Demo.waitingEntry).2 = Some "general-1")
  ∧ (chan_name <$> channels (Sample.acceptedWith Sample.entryA).1 = ["general"]
     ∧ Sample.nameOf (Sample.acceptedWith Sample.entryA).2 = Some "general").
Proof.
  split; [|split; [|split; [|split; [|split]]]].
  - intros chs invite.
    destruct (probe_found chs invite _ 0 _ (findChannelName_found chs invite))
      as (k & _ & Hk & Hclash & Hsuit).
    exists k. split; [done|]. split; [|done].
    intros j Hj. apply Hclash. lia.
  - intros identityKey identity entry encryptedInvite invite st Hdecrypt st'.
    unfold waitForInvite_resume. by rewrite Hdecrypt.
  - reflexivity.
  - reflexivity.
  - split; vm_compute; reflexivity.
  - split; vm_compute; reflexivity.
Qed.

Lemma channel_name_probing_witness :
  decrypt Demo.waitingEntry Sample.arrived = inl Demo.inviteB
  ∧ ∃ st',
      waitForInvite_resume "a1" Demo.alice Demo.waitingEntry (Fulfilled Sample.arrived)
        Demo.waiting
      = (st', await (ChannelFromInvite Demo.inviteB 1 "general-1")
                (acceptInvite_save "a1")).
Proof.
  split; [reflexivity|].
  eexists.
  exact (proj1 (proj2 channel_name_probing) "a1" Demo.alice Demo.waitingEntry
           Sample.arrived Demo.inviteB Demo.waiting eq_refl).
Defined.

(** *** Waiting for an invite *)

Section InviteWait.

Lemma assignWaiter_lookup (p : nat) (w : option nat) (m : gmap string PendingInvite)
    (key : string) (e : PendingInvite) :
  m !! key = Some e → pref e = p →
  assignWaiter p w m !! key = Some (with_waiter w e).
Proof.
  intros Hm <-. unfold assignWaiter. rewrite lookup_fmap, Hm. simpl.
  by rewrite Nat.eqb_refl.
Qed.

Lemma assignWaiter_keeps (p : nat) (w : option nat) (m : gmap string PendingInvite)
    (key : string) :
  ∃ f : PendingInvite → PendingInvite,
    assignWaiter p w m !! key = f <$> (m !! key)
    ∧ ∀ e, pref (f e) = pref e ∧ requestId (f e) = requestId e
           ∧ decrypt (f e) = decrypt e ∧ encoded (f e) = encoded e.
Proof.
  eexists. split; [apply lookup_fmap|].
  intros e. simpl. by destruct (Nat.eqb (pref e) p).
Qed.

Lemma cancel_pending (w : nat) (r : Buffer) (sw : Swarm.t) :
  Swarm.invites sw !! w = Some (r, Swarm.Pending) →
  Swarm.invites (Swarm.cancel w sw) !! w = Some (r, Swarm.Cancelled).
Proof. intros H. unfold Swarm.cancel. rewrite H. simpl. apply lookup_insert_eq. Qed.

Lemma waitForInvite_fresh (r : Buffer) (sw : Swarm.t) :
  Swarm.invites sw !! (Swarm.waitForInvite r sw).1 = None.
Proof. simpl. apply not_elem_of_dom, is_fresh. Qed.

End InviteWait.

(** What [waitForInvite] does with the waiter its entry refers to.  For an
    identity with a pending entry, the handler first cancels the waiter the
    entry refers to, if there is one and it is still pending, then stores a
    new waiter in the entry and suspends on it.  When a wait resumes because
    its waiter was cancelled, failed or timed out, whatever the error and
    whatever happened to the instance meanwhile, it resolves with [false]
    instead of rejecting, sets the [waiter] of its entry to [null] and leaves
    the registry otherwise as it is: the same keys, each entry with the same
    request. *)
Lemma waitForInvite_preempts (identityKey : string) (st : Network)
    (identity : Identity) (entry : PendingInvite) :
  identityByKey st identityKey = Some identity →
  pendingInvites st !! identityKey = Some entry →
  ∃ (w : nat) (st1 : Network),
    waitForInvite identityKey st
    = (st1, Await (SwarmInvite w) (waitForInvite_resume identityKey identity entry))
    ∧ (∀ w0 r, waiter entry = Some w0 →
               Swarm.invites (swarm st) !! w0 = Some (r, Swarm.Pending) →
               w0 ≠ w ∧ Swarm.invites (swarm st1) !! w0 = Some (r, Swarm.Cancelled))
    ∧ Swarm.invites (swarm st1) !! w = Some (requestId entry, Swarm.Pending)
    ∧ pendingInvites st1 !! identityKey = Some (with_waiter (Some w) entry)
    ∧ ∀ (e : JSError) (st' : Network),
        ∃ st'' : Network,
          waitForInvite_resume identityKey identity entry (Rejected e) st'
          = (st'', Fin (Fulfilled (VBool false)))
          ∧ (∀ entry', pendingInvites st' !! identityKey = Some entry' →
                       pref entry' = pref entry →
                       pendingInvites st'' !! identityKey = Some (with_waiter None entry'))
          ∧ (∀ key, ∃ f : PendingInvite → PendingInvite,
                pendingInvites st'' !! key = f <$> (pendingInvites st' !! key)
                ∧ ∀ x, pref (f x) = pref x ∧ requestId (f x) = requestId x
                       ∧ decrypt (f x) = decrypt x ∧ encoded (f x) = encoded x).
Proof.
  intros Hid Hp. unfold waitForInvite. rewrite Hid, Hp.
  set (sw := match waiter entry with
             | Some w0 => Swarm.cancel w0 (swarm st)
             | None => swarm st
             end).
  pose proof (waitForInvite_fresh (requestId entry) sw) as Hfresh.
  unfold Swarm.waitForInvite in *. simpl in *.
  set (w := fresh (dom (Swarm.invites sw))) in *.
  eexists w, _. split; [reflexivity|]. simpl.
  split; [|split; [|split; [|]]].
  - intros w0 r Hw0 Hpend. subst sw. rewrite Hw0 in *.
    pose proof (cancel_pending _ _ _ Hpend) as Hc.
    assert (w0 ≠ w) as Hne by (intros ->; rewrite Hc in Hfresh; discriminate).
    split; [done|]. by rewrite lookup_insert_ne.
  - apply lookup_insert_eq.
  - by apply assignWaiter_lookup.
  - intros e st'. eexists. split; [reflexivity|]. simpl. split.
    + intros entry' He' Hpref. by apply assignWaiter_lookup.
    + intros key. apply assignWaiter_keeps.
Qed.

Lemma waitForInvite_preempts_twice :
  identityByKey Demo.waiting "a1" = Some Demo.alice
  ∧ pendingInvites Demo.waiting !! "a1" = Some Demo.waitingEntry
  ∧ ∃ (w : nat) (st1 : Network),
      waitForInvite "a1" Demo.waiting
      = (st1, Await (SwarmInvite w)
                (waitForInvite_resume "a1" Demo.alice Demo.waitingEntry))
      ∧ Swarm.invites (swarm st1) !! 0 = Some (Demo.aliceKey, Swarm.Cancelled).
Proof.
  assert (identityByKey Demo.waiting "a1" = Some Demo.alice) as Hid
    by (vm_compute; reflexivity).
  assert (pendingInvites Demo.waiting !! "a1" = Some Demo.waitingEntry) as Hp
    by (vm_compute; reflexivity).
  split; [exact Hid|]. split; [exact Hp|].
  destruct (waitForInvite_preempts "a1" Demo.waiting Demo.alice Demo.waitingEntry Hid Hp)
    as (w & st1 & Hcall & Hcancel & _).
  exists w, st1. split; [exact Hcall|].
  apply (Hcancel 0 Demo.aliceKey); vm_compute; reflexivity.
Defined.

(** ** Waiting for an incoming message *)

Section WaitFacts.

Lemma channelById_known (st : Network) (channel : Channel) :
  channel ∈ channels st →
  ∃ found, channelById st (toHex (chan_id channel)) = Some found
           ∧ chan_id found = chan_id channel.
Proof.
  intros Hin. unfold channelById. rewrite fromHex_toHex.
  destruct (find _ (channels st)) as [found|] eqn:Hf.
  - exists found. split; [done|]. apply find_some in Hf as [_ Heq].
    by apply equals_eq.
  - apply list_elem_of_In in Hin.
    pose proof (find_none _ _ Hf channel Hin) as Hno. simpl in Hno.
    by rewrite equals_refl in Hno.
Qed.

Lemma resolve_delivers (topic : string) (v : Value) (w : nat) (wl : WaitList.t) :
  WaitList.registered topic w wl →
  WaitList.delivered (WaitList.resolve topic v wl) !! w = Some (Fulfilled v).
Proof.
  intros (x & Hin & <-). unfold WaitList.resolve. simpl.
  induction (WaitList.waitersOf topic wl) as [|y l IH]; [by apply elem_of_nil in Hin|].
  simpl. destruct (decide (WaitList.wid y = WaitList.wid x)) as [->|Hne].
  - apply lookup_insert_eq.
  - rewrite lookup_insert_ne; [|done]. apply IH.
    apply elem_of_cons in Hin as [->|Hin]; done.
Qed.

Lemma expire_delivers (topic : string) (w t : nat) (wl : WaitList.t) :
  {| WaitList.wid := w; WaitList.wtimeout := Some t |} ∈ WaitList.waitersOf topic wl →
  WaitList.delivered (WaitList.expire topic w wl) !! w
  = Some (Rejected (WaitList.timeoutError topic)).
Proof.
  intros Hin. unfold WaitList.expire.
  destruct (list_find _ _) as [[i x]|] eqn:Hf.
  - simpl. apply lookup_insert_eq.
  - apply list_find_None in Hf. rewrite Forall_forall in Hf.
    destruct (Hf _ Hin). simpl. split; [done|by eexists].
Qed.

Lemma waitFor_registers (topic : string) (timeout : option nat) (wl : WaitList.t) :
  WaitList.waitersOf topic (WaitList.waitFor topic timeout wl).2
  = WaitList.waitersOf topic wl
    ++ [{| WaitList.wid := (WaitList.waitFor topic timeout wl).1;
           WaitList.wtimeout := timeout |}].
Proof. unfold WaitList.waitersOf at 1. simpl. by rewrite lookup_insert_eq. Qed.

Lemma runUpdateLoop_waitList (channel : Channel) (timeout : option nat) (st : Network) :
  waitList (runUpdateLoop channel timeout st) = waitList st.
Proof.
  unfold runUpdateLoop. destruct (negb _); [done|]. by case_bool_decide.
Qed.

(** The broadcast of the update loop reaches the waiters of its channel. *)
Lemma loop_broadcast (entry w : nat) (task : LoopTask) (st : Network) :
  findTask entry AwaitingBadge st = Some task →
  WaitList.registered (updateTopic (lt_channel task)) w (waitList st) →
  WaitList.delivered (waitList (loopBadgeSettled entry (Fulfilled ()) st)) !! w
  = Some (Fulfilled (VBool true)).
Proof.
  intros Hf Hreg. unfold loopBadgeSettled. rewrite Hf.
  rewrite runUpdateLoop_waitList. simpl. by apply resolve_delivers.
Qed.

End WaitFacts.

(** C3, as the code has it.  For a channel the instance knows, asked for
    under the hex id the serializer gives it: when the channel is marked
    updated, [waitForIncomingMessage] resolves with [true] before any
    [await], unmarks the channel and registers no waiter; otherwise it
    registers one waiter, with the caller's timeout, on the topic the
    channel's update loop broadcasts on, suspends on it and settles the way
    that waiter does: with the value it is resolved with ([true] from the
    update loop's broadcast, [false] from the broadcast [removeIdentityPair]
    makes for the channel), or with the timeout error when the timeout
    elapses first. *)
Theorem waitForIncomingMessage_dirty_or_wait (st : Network) (channel : Channel)
    (timeout : option nat) :
  channelById st (toHex (chan_id channel)) = Some channel →
  let p := {| wm_channelId := toHex (chan_id channel); wm_timeout := timeout |} in
  (cref channel ∈ updatedChannels st →
     waitForIncomingMessage p st
     = (set_updatedChannels (λ s, s ∖ {[cref channel]}) st, Fin (Fulfilled (VBool true)))
     ∧ ¬ (cref channel ∈ updatedChannels (waitForIncomingMessage p st).1)
     ∧ waitList (waitForIncomingMessage p st).1 = waitList st)
  ∧ (cref channel ∉ updatedChannels st →
     ∃ (w : nat) (k : Outcome Value → Network → Network * Task) (st1 : Network),
       waitForIncomingMessage p st = (st1, Await (WaitListEntry w) k)
       ∧ WaitList.waitersOf (updateTopic channel) (waitList st1)
         = WaitList.waitersOf (updateTopic channel) (waitList st)
           ++ [{| WaitList.wid := w; WaitList.wtimeout := timeout |}]
       ∧ (∀ v st', k (Fulfilled v) st'
                   = (set_updatedChannels (λ s, s ∖ {[cref channel]}) st',
                      Fin (Fulfilled v)))
       ∧ (∀ e st', k (Rejected e) st' = (st', Fin (Rejected e)))
       ∧ (∀ st' entry task,
            WaitList.registered (updateTopic channel) w (waitList st') →
            findTask entry AwaitingBadge st' = Some task →
            chan_id (lt_channel task) = chan_id channel →
            WaitList.delivered (waitList (loopBadgeSettled entry (Fulfilled ()) st')) !! w
            = Some (Fulfilled (VBool true)))
       ∧ (∀ st' key,
            WaitList.registered (updateTopic channel) w (waitList st') →
            WaitList.delivered
              (waitList (removeIdentityPair_finish (Some channel) key st').1) !! w
            = Some (Fulfilled (VBool false)))
       ∧ (∀ t, timeout = Some t →
            WaitList.delivered
              (WaitList.expire (updateTopic channel) w (waitList st1)) !! w
            = Some (Rejected (WaitList.timeoutError (updateTopic channel))))).
Proof.
  intros Hfound p. unfold waitForIncomingMessage. simpl. rewrite Hfound. split.
  - intros Hdirty. rewrite bool_decide_eq_true_2; [|done]. simpl.
    split; [done|]. split; [|done].
    intros [_ Hn]%elem_of_difference. apply Hn. by apply elem_of_singleton.
  - intros Hclean. rewrite bool_decide_eq_false_2; [|done].
    pose proof (waitFor_registers (updateTopic channel) timeout (waitList st)) as Hreg.
    unfold updateTopic in *. simpl in Hreg. simpl.
    unfold await. eexists _, _, _. split; [reflexivity|]. simpl.
    split; [exact Hreg|]. split; [done|]. split; [done|].
    split; [|split].
    + intros st' entry task Hr Hf Hid.
      apply loop_broadcast with task; [done|]. unfold updateTopic. by rewrite Hid.
    + intros st' key Hr.
      assert (∀ x, waitList (cancelPending key x) = waitList x) as ->.
      { intros x. unfold cancelPending.
        destruct (pendingInvites x !! key) as [pe|]; [|done]. by destruct (waiter pe). }
      simpl. by apply resolve_delivers.
    + intros t ->. apply (expire_delivers _ _ t). rewrite Hreg.
      apply elem_of_app. right. by apply list_elem_of_singleton.
Qed.

Lemma waitForIncomingMessage_dirty_or_wait_witness :
  channelById Demo.ready (toHex (chan_id Demo.general)) = Some Demo.general
  ∧ ∃ (w : nat) (k : Outcome Value → Network → Network * Task) (st1 : Network),
      waitForIncomingMessage {| wm_channelId := "aa"; wm_timeout := Some 500 |} Demo.ready
      = (st1, Await (WaitListEntry w) k)
      ∧ WaitList.waitersOf "update:aa" (waitList st1)
        = [{| WaitList.wid := w; WaitList.wtimeout := Some 500 |}].
Proof.
  assert (channelById Demo.ready (toHex (chan_id Demo.general)) = Some Demo.general)
    as Hid by reflexivity.
  split; [exact Hid|].
  destruct (proj2 (waitForIncomingMessage_dirty_or_wait Demo.ready Demo.general
                     (Some 500) Hid) (not_elem_of_empty _))
    as (w & k & st1 & Hcall & Hreg & _).
  exists w, k, st1. split; [exact Hcall | exact Hreg].
Defined.

(** ** The update loops *)

Section LoopFacts.

Lemma fmap_inj_on {A B : Type} (f : A → B) (l : list A) (x y : A) :
  NoDup (f <$> l) → x ∈ l → y ∈ l → f x = f y → x = y.
Proof.
  induction l as [|a l IH]; intros Hnd Hx Hy Hf; [by apply elem_of_nil in Hx|].
  rewrite fmap_cons in Hnd. apply NoDup_cons in Hnd as [Hnotin Hnd].
  apply elem_of_cons in Hx as [->|Hx]; apply elem_of_cons in Hy as [->|Hy].
  - done.
  - destruct Hnotin. rewrite Hf. by apply list_elem_of_fmap_2.
  - destruct Hnotin. rewrite <- Hf. by apply list_elem_of_fmap_2.
  - by apply IH.
Qed.

Lemma filter_absent (c : nat) (l : list LoopTask) :
  c ∉ taskChannel <$> l →
  List.filter (λ t, Nat.eqb (taskChannel t) c) l = [].
Proof.
  induction l as [|a l IH]; intros Hc; [done|]. simpl.
  rewrite fmap_cons in Hc. apply not_elem_of_cons in Hc as [Hne Hc].
  destruct (Nat.eqb_spec (taskChannel a) c) as [Heq|_]; [by destruct Hne|].
  by apply IH.
Qed.

Lemma filter_present (c : nat) (l : list LoopTask) :
  c ∈ taskChannel <$> l →
  1 ≤ length (List.filter (λ t, Nat.eqb (taskChannel t) c) l).
Proof.
  induction l as [|a l IH]; intros Hc; [by apply elem_of_nil in Hc|]. simpl.
  rewrite fmap_cons in Hc.
  destruct (Nat.eqb_spec (taskChannel a) c) as [Heq|Hne]; [simpl; lia|].
  apply elem_of_cons in Hc as [->|Hc]; [done|]. by apply IH.
Qed.

Lemma filter_single (c : nat) (l : list LoopTask) :
  NoDup (taskChannel <$> l) →
  length (List.filter (λ t, Nat.eqb (taskChannel t) c) l) ≤ 1.
Proof.
  induction l as [|a l IH]; intros Hnd; [simpl; lia|]. simpl.
  rewrite fmap_cons in Hnd. apply NoDup_cons in Hnd as [Hnotin Hnd].
  destruct (Nat.eqb_spec (taskChannel a) c) as [<-|Hne]; [|by apply IH].
  rewrite filter_absent; [simpl; lia|done].
Qed.

Lemma findTask_elem (entry : nat) (phase : LoopPhase) (st : Network) (t : LoopTask) :
  findTask entry phase st = Some t → t ∈ loopTasks st ∧ lt_entry t = entry.
Proof.
  intros H. apply find_some in H as [Hin Hb]. split; [by apply list_elem_of_In|].
  apply andb_true_iff in Hb as [Hb _]. by apply Nat.eqb_eq.
Qed.

Lemma loops_ok_fresh (st : Network) :
  loopTasks st = [] → updateLoops st = ∅ → loops_ok st.
Proof.
  intros Ht Hr. constructor; rewrite ?Ht, ?Hr; simpl.
  - constructor.
  - intros c. rewrite lookup_empty. split; [by intros [? ?]|by intros ?%elem_of_nil].
  - by intros t ?%elem_of_nil.
  - constructor.
Qed.

Lemma loops_ok_start (channel : Channel) (timeout : option nat) (st : Network) :
  loops_ok st → loops_ok (runUpdateLoop channel timeout st).
Proof.
  intros [Hs Hr Hf He]. unfold runUpdateLoop.
  destruct (negb _); [by constructor|].
  case_bool_decide as Hhas; [by constructor|].
  constructor; simpl.
  - rewrite fmap_app. simpl. apply NoDup_app. split; [done|]. split.
    + intros c Hc ->%list_elem_of_singleton. by apply Hhas, Hr.
    + apply NoDup_singleton.
  - intros c. rewrite fmap_app, elem_of_app. simpl.
    rewrite list_elem_of_singleton. unfold taskChannel at 2. simpl.
    destruct (decide (cref channel = c)) as [->|Hne].
    + rewrite lookup_insert_eq. split; [by right|by eexists].
    + rewrite lookup_insert_ne; [|done]. rewrite Hr.
      split; [by left|]. by intros [?|?].
  - intros t [Ht| ->%list_elem_of_singleton]%elem_of_app; simpl; [|lia].
    specialize (Hf t Ht). lia.
  - rewrite fmap_app. simpl. apply NoDup_app. split; [done|]. split.
    + intros e (t & -> & Ht)%list_elem_of_fmap Heq%list_elem_of_singleton.
      specialize (Hf t Ht). simpl in Heq. lia.
    + apply NoDup_singleton.
Qed.

Lemma loops_ok_finally (t : LoopTask) (st : Network) :
  loops_ok st → t ∈ loopTasks st → loops_ok (loopFinally t st).
Proof.
  intros [Hs Hr Hf He] Ht. unfold loopFinally, dropTask.
  constructor; simpl.
  - eapply sublist_NoDup; [exact Hs|]. apply fmap_sublist, sublist_filter.
  - intros c. rewrite list_elem_of_fmap. destruct (decide (taskChannel t = c)) as [<-|Hne].
    + unfold taskChannel at 1. rewrite lookup_delete_eq. split; [by intros [? ?]|].
      intros (x & Hx & [Hne Hin]%list_elem_of_filter). destruct Hne.
      f_equal. by apply (fmap_inj_on taskChannel (loopTasks st)).
    + unfold taskChannel in Hne. rewrite lookup_delete_ne; [|done].
      rewrite Hr, list_elem_of_fmap. split.
      * intros (x & -> & Hx). exists x. split; [done|].
        apply list_elem_of_filter. split; [|done].
        intros Heq. apply Hne.
        by rewrite (fmap_inj_on lt_entry (loopTasks st) x t He Hx Ht Heq).
      * intros (x & -> & [_ Hx]%list_elem_of_filter). by exists x.
  - intros x [_ Hx]%list_elem_of_filter. by apply Hf.
  - eapply sublist_NoDup; [exact He|]. apply fmap_sublist, sublist_filter.
Qed.

End LoopFacts.

Section LoopRuns.

Lemma loops_ok_entry (entry : nat) (o : Outcome unit) (st : Network) :
  loops_ok st → loops_ok (loopEntrySettled entry o st).
Proof.
  intros Hok. unfold loopEntrySettled.
  destruct (findTask entry AwaitingEntry st) as [t|] eqn:Hfind; [|done].
  apply findTask_elem in Hfind as [Ht _].
  destruct o as [[]|e]; [|by apply loops_ok_finally].
  destruct Hok as [Hs Hr Hf He].
  set (g := λ x : LoopTask, if Nat.eqb (lt_entry x) entry then _ else x).
  assert (∀ x, taskChannel (g x) = taskChannel x ∧ lt_entry (g x) = lt_entry x) as Hg.
  { intros x. unfold g. by destruct (Nat.eqb (lt_entry x) entry). }
  assert (taskChannel <$> (g <$> loopTasks st) = taskChannel <$> loopTasks st) as Hc.
  { rewrite <- list_fmap_compose. apply list_fmap_ext. intros i x _. apply Hg. }
  assert (lt_entry <$> (g <$> loopTasks st) = lt_entry <$> loopTasks st) as Hen.
  { rewrite <- list_fmap_compose. apply list_fmap_ext. intros i x _. apply Hg. }
  constructor; simpl; rewrite ?Hc, ?Hen; try done.
  intros x (y & -> & Hy)%list_elem_of_fmap.
  rewrite (proj2 (Hg y)). by apply Hf.
Qed.

Lemma loops_ok_badge (entry : nat) (o : Outcome unit) (st : Network) :
  loops_ok st → loops_ok (loopBadgeSettled entry o st).
Proof.
  intros Hok. unfold loopBadgeSettled.
  destruct (findTask entry AwaitingBadge st) as [t|] eqn:Hfind; [|done].
  apply findTask_elem in Hfind as [Ht _].
  destruct o as [[]|e]; [|by apply loops_ok_finally].
  apply loops_ok_start, loops_ok_finally; [|done].
  by destruct Hok.
Qed.

Lemma loops_ok_step (st : Network) (e : LoopEvent) :
  loops_ok st → loops_ok (loopStep st e).
Proof.
  intros Hok. destruct e; simpl.
  - by apply loops_ok_start.
  - by apply loops_ok_entry.
  - by apply loops_ok_badge.
  - by destruct Hok.
  - by destruct Hok.
  - destruct Hok as [Hs Hr Hf He]. constructor; simpl; try done.
    intros t Ht. specialize (Hf t Ht). lia.
Qed.

Lemma loops_ok_exec (evs : list LoopEvent) (st : Network) :
  loops_ok st → loops_ok (loopExec evs st).
Proof.
  revert st. induction evs as [|e evs IH]; intros st Hok; [done|].
  apply IH. by apply loops_ok_step.
Qed.

Lemma filter_shorter {A : Type} (f : A → bool) (l : list A) :
  length (List.filter f l) ≤ length l.
Proof. induction l as [|a l IH]; simpl; [lia|]. destruct (f a); simpl; lia. Qed.

End LoopRuns.

(** C4.  Along every run of the update loops from an instance that has
    none yet (as the constructor leaves it), with
    start requests arriving at any moment, also while an activation for the
    same channel is suspended: there is at most one activation per channel,
    so at most one outstanding wait on the channel; the registry has an
    entry for a channel exactly when that activation exists; and a start
    request for a channel that has an entry returns at once and leaves the
    instance as it is, so it issues no second wait. *)
Theorem update_loop_single (st0 : Network) (evs : list LoopEvent) (c : nat) :
  loopTasks st0 = [] → updateLoops st0 = ∅ →
  let st := loopExec evs st0 in
  length (activations c st) ≤ 1
  ∧ length (externalWaits c st) ≤ length (activations c st)
  ∧ (is_Some (updateLoops st !! c) ↔ length (activations c st) = 1)
  ∧ (∀ channel timeout,
       cref channel = c → is_Some (updateLoops st !! c) →
       runUpdateLoop channel timeout st = st).
Proof.
  intros Htasks Hreg st.
  pose proof (loops_ok_exec evs st0 (loops_ok_fresh st0 Htasks Hreg)) as [Hs Hr _ _].
  fold st in Hs, Hr.
  pose proof (filter_single c (loopTasks st) Hs) as Hle.
  split; [exact Hle|]. split; [apply filter_shorter|]. split.
  - rewrite Hr. split.
    + intros Hin%filter_present. unfold activations. unfold taskChannel in *. lia.
    + intros Hlen. destruct (decide (c ∈ taskChannel <$> loopTasks st)) as [|Hno]; [done|].
      apply filter_absent in Hno. unfold activations, taskChannel in *.
      rewrite Hno in Hlen. discriminate.
  - intros channel timeout <- Hhas. unfold runUpdateLoop.
    destruct (negb _); [done|]. by rewrite bool_decide_eq_true_2.
Qed.

Lemma update_loop_single_witness :
  let st := loopExec [Start Demo.general None; EntrySettled 2 (Fulfilled ());
                      Start Demo.general None]
              Demo.ready in
  loopTasks Demo.ready = [] ∧ updateLoops Demo.ready = ∅
  ∧ is_Some (updateLoops st !! 1)
  ∧ length (activations 1 st) = 1
  ∧ runUpdateLoop Demo.general None st = st.
Proof.
  intros st.
  assert (is_Some (updateLoops st !! 1)) as Hhas by (by eexists).
  destruct (update_loop_single Demo.ready
              [Start Demo.general None; EntrySettled 2 (Fulfilled ());
               Start Demo.general None] 1 eq_refl eq_refl)
    as (_ & _ & Hiff & Hstart).
  split; [reflexivity|]. split; [reflexivity|]. split; [exact Hhas|]. split.
  - apply Hiff, Hhas.
  - apply Hstart; [reflexivity | exact Hhas].
Defined.

(** ** Removing an identity pair *)

Section RemoveFacts.

Lemma cancelPending_registry (identityKey : string) (st : Network) :
  pendingInvites (cancelPending identityKey st) = pendingInvites st.
Proof.
  unfold cancelPending. destruct (pendingInvites st !! identityKey) as [pending|]; [|done].
  by destruct (waiter pending).
Qed.

Lemma cancelPending_cancels (identityKey : string) (st : Network)
    (pending : PendingInvite) (w : nat) (r : Buffer) :
  pendingInvites st !! identityKey = Some pending →
  waiter pending = Some w →
  Swarm.invites (swarm st) !! w = Some (r, Swarm.Pending) →
  Swarm.invites (swarm (cancelPending identityKey st)) !! w = Some (r, Swarm.Cancelled).
Proof.
  intros Hp Hw Hs. unfold cancelPending. rewrite Hp, Hw. simpl.
  by apply cancel_pending.
Qed.

(** Every way through the handler ends in [removeIdentityPair_finish], with
    the channel the first lookup found, unless an awaited call rejects;
    what the awaited calls preserve still holds there. *)
Lemma removeIdentityPair_run (env : Env) (p : RemovePayload) (st : Network)
    (Inv : Network → Prop) :
  Inv st →
  (∀ X (a : Awaitable X) s, Inv s → Inv (env X a s).1) →
  (∃ e, (runHandler env removeIdentityPair p st).2 = Rejected e
        ∧ ∃ X (a : Awaitable X) s, (env X a s).2 = Rejected e)
  ∨ ∃ st0, Inv st0
           ∧ runHandler env removeIdentityPair p st
             = (let '(st', t) := removeIdentityPair_finish
                                   (channelById st (rm_channelId p))
                                   (rm_identityKey p) st0 in
                runTask env st' t).
Proof.
  intros Hst Henv.
  assert (∀ X (a : Awaitable X) s s' o, Inv s → env X a s = (s', o) → Inv s') as Hkeep.
  { intros X a s s' o Hs He. specialize (Henv X a s Hs). by rewrite He in Henv. }
  assert (∀ X (a : Awaitable X) s s' e, env X a s = (s', Rejected e) →
          ∃ X (a : Awaitable X) s, (env X a s).2 = Rejected e) as Hrej.
  { intros X a s s' e He. exists X, a, s. by rewrite He. }
  unfold runHandler, removeIdentityPair, removeIdentityPair_identity, await.
  destruct (channelById st (rm_channelId p)) as [c|]; simpl.
  - destruct (env _ (RemoveChannel (cref c)) st) as [st1 [[]|e]] eqn:E1; simpl;
      [|left; exists e; eauto].
    destruct (identityByKey st1 (rm_identityKey p)) as [i|]; simpl.
    + destruct (env _ (RemoveIdentity (iref i)) st1) as [st2 [[]|e]] eqn:E2; simpl;
        [|left; exists e; eauto].
      destruct (env _ UpdateBadge st2) as [st3 [[]|e]] eqn:E3; simpl;
        [|left; exists e; eauto].
      right. exists st3. eauto 6.
    + destruct (env _ UpdateBadge st1) as [st3 [[]|e]] eqn:E3; simpl;
        [|left; exists e; eauto].
      right. exists st3. eauto 6.
  - destruct (identityByKey st (rm_identityKey p)) as [i|]; simpl.
    + destruct (env _ (RemoveIdentity (iref i)) st) as [st2 [[]|e]] eqn:E2; simpl;
        [|left; exists e; eauto].
      destruct (env _ UpdateBadge st2) as [st3 [[]|e]] eqn:E3; simpl;
        [|left; exists e; eauto].
      right. exists st3. eauto 6.
    + destruct (env _ UpdateBadge st) as [st3 [[]|e]] eqn:E3; simpl;
        [|left; exists e; eauto].
      right. exists st3. eauto 6.
Qed.

(** Without the channel the handler never gets to resolve: it rejects. *)
Lemma removeIdentityPair_missing_channel (env : Env) (p : RemovePayload) (st : Network) :
  channelById st (rm_channelId p) = None →
  ∃ e, (runHandler env removeIdentityPair p st).2 = Rejected e.
Proof.
  intros Hnone.
  destruct (removeIdentityPair_run env p st (λ _, True)) as [(e & Hr & _) | (st0 & _ & Hr)];
    [done|done|by exists e|].
  rewrite Hr, Hnone. simpl. by eexists.
Qed.

End RemoveFacts.

(** C1, as the code has it.  When [removeIdentityPair] resolves, the channel
    it names was found; the waiter the entry of the identity key refers to,
    if it was still pending, has been cancelled; and the registry of pending
    invites is what it was: the entry of the identity key is still there.
    This holds of the last step of the handler on whatever instance it
    resumes on, and of a whole run during which neither the registry nor the
    swarm's waiters are touched from outside; such a run resolves whenever
    the channel is found and no awaited call rejects. *)
Theorem removeIdentityPair_cancels_keeps_entry :
  (∀ (channel : Channel) (key : string) (st0 : Network),
     ∃ st', removeIdentityPair_finish (Some channel) key st0
            = (st', Fin (Fulfilled VUndefined))
            ∧ pendingInvites st' = pendingInvites st0
            ∧ ∀ pending w r,
                pendingInvites st0 !! key = Some pending →
                waiter pending = Some w →
                Swarm.invites (swarm st0) !! w = Some (r, Swarm.Pending) →
                Swarm.invites (swarm st') !! w = Some (r, Swarm.Cancelled))
  ∧ (∀ (env : Env) (p : RemovePayload) (st : Network),
       (∀ X (a : Awaitable X) s,
          pendingInvites (env X a s).1 = pendingInvites s
          ∧ swarm (env X a s).1 = swarm s) →
       (∀ st' v,
          runHandler env removeIdentityPair p st = (st', Fulfilled v) →
          v = VUndefined
          ∧ is_Some (channelById st (rm_channelId p))
          ∧ pendingInvites st' = pendingInvites st
          ∧ ∀ pending w r,
              pendingInvites st !! rm_identityKey p = Some pending →
              waiter pending = Some w →
              Swarm.invites (swarm st) !! w = Some (r, Swarm.Pending) →
              Swarm.invites (swarm st') !! w = Some (r, Swarm.Cancelled))
       ∧ (is_Some (channelById st (rm_channelId p)) →
          (∀ X (a : Awaitable X) s e, (env X a s).2 ≠ Rejected e) →
          ∃ st', runHandler env removeIdentityPair p st = (st', Fulfilled VUndefined))).
Proof.
  split.
  - intros channel key st0. eexists. split; [reflexivity|]. split.
    + by rewrite cancelPending_registry.
    + intros pending w r Hp Hw Hs. by apply (cancelPending_cancels _ _ pending).
  - intros env p st Henv.
    destruct (removeIdentityPair_run env p st
                (λ s, pendingInvites s = pendingInvites st ∧ swarm s = swarm st))
      as [(e & Hr & X & a & s & Hrej) | (st0 & [Hreg Hsw] & Hr)].
    { done. }
    { intros X a s [H1 H2]. destruct (Henv X a s) as [-> ->]. done. }
    + split.
      * intros st' v Hrun. rewrite Hrun in Hr. discriminate.
      * intros _ Hok. by destruct (Hok X a s e).
    + destruct (channelById st (rm_channelId p)) as [channel|]; simpl in Hr.
      * split; [|intros _ _; by eexists].
        intros st' v Hrun. rewrite Hrun in Hr. injection Hr as -> ->.
        split; [done|]. split; [by eexists|].
        rewrite cancelPending_registry. simpl. split; [done|].
        intros pending w r Hp Hw Hs.
        apply (cancelPending_cancels _ _ pending); simpl; [by rewrite Hreg|done|].
        by rewrite Hsw.
      * split; [|by intros [? ?]].
        intros st' v Hrun. rewrite Hrun in Hr. discriminate.
Qed.

Lemma removeIdentityPair_cancels_keeps_entry_witness :
  let p := {| rm_channelId := "aa"; rm_identityKey := "a1" |} in
  is_Some (channelById Demo.waiting (rm_channelId p))
  ∧ ∃ st', runHandler Demo.quiet removeIdentityPair p Demo.waiting
           = (st', Fulfilled VUndefined)
           ∧ pendingInvites st' = pendingInvites Demo.waiting
           ∧ Swarm.invites (swarm st') !! 0 = Some (Demo.aliceKey, Swarm.Cancelled).
Proof.
  intros p.
  assert (is_Some (channelById Demo.waiting (rm_channelId p))) as Hch by (by eexists).
  assert (∀ X (a : Awaitable X) s,
            pendingInvites (Demo.quiet X a s).1 = pendingInvites s
            ∧ swarm (Demo.quiet X a s).1 = swarm s) as Henv
    by (intros X a s; by destruct a).
  assert (∀ X (a : Awaitable X) s e, (Demo.quiet X a s).2 ≠ Rejected e) as Hok
    by (intros X a s e; by destruct a).
  destruct (proj2 removeIdentityPair_cancels_keeps_entry Demo.quiet p Demo.waiting Henv)
    as [Hdone Hruns].
  destruct (Hruns Hch Hok) as [st' Hrun].
  destruct (Hdone st' VUndefined Hrun) as (_ & _ & Hreg & Hcancel).
  split; [exact Hch|]. exists st'. split; [exact Hrun|]. split; [exact Hreg|].
  apply (Hcancel Demo.waitingEntry 0 Demo.aliceKey); vm_compute; reflexivity.
Defined.

(** C1, as stated, fails: [alice] waits for an invite and is removed together
    with her channel; the handler resolves and her entry is still in the
    registry. *)
Lemma removeIdentityPair_entry_remains :
  let r := runHandler Demo.quiet removeIdentityPair
             {| rm_channelId := "aa"; rm_identityKey := "a1" |} Demo.waiting in
  is_Some (pendingInvites Demo.waiting !! "a1")
  ∧ r.2 = Fulfilled VUndefined
  ∧ ¬ (pendingInvites r.1 !! "a1" = None).
Proof.
  split; [by eexists|]. split; [vm_compute; reflexivity|].
  vm_compute. discriminate.
Qed.

(** C2.  The code at a request that names no channel of the instance: the
    identity is removed, then the handler rejects with the [TypeError] of
    reading [id] from [undefined]; the waiter of the pending invite has not
    been cancelled. *)
Theorem removeIdentityPair_unknown_channel_rejects :
  let r := runHandler Demo.quiet removeIdentityPair
             {| rm_channelId := "ff"; rm_identityKey := "a1" |} Demo.waiting in
  r.2 = Rejected (mkTypeError "Cannot read property 'id' of undefined")
  ∧ identities r.1 = []
  ∧ Swarm.invites (swarm r.1) !! 0 = Some (Demo.aliceKey, Swarm.Pending).
Proof. vm_compute. repeat split; reflexivity. Qed.


(** C3, as stated, fails: a caller waits on [general] while its update loop
    runs; the loop's wait on the channel rejects and the loop ends, its
    registry entry gone.  Nothing is handed to the caller's waiter, so the
    call does not return [false]: it is still registered, waiting. *)
Lemma waitForIncomingMessage_loop_end_is_silent :
  let call := waitForIncomingMessage {| wm_channelId := "aa"; wm_timeout := Some 500 |}
                Demo.looping in
  let st2 := loopStep call.1 (EntrySettled 2 (Rejected (mkError "Channel removed"))) in
  (∃ k, call.2 = Await (WaitListEntry 0) k)
  ∧ length (activations 1 call.1) = 1
  ∧ activations 1 st2 = [] ∧ updateLoops st2 !! 1 = None
  ∧ WaitList.waitersOf "update:aa" (waitList st2)
    = [{| WaitList.wid := 0; WaitList.wtimeout := Some 500 |}]
  ∧ ¬ (WaitList.delivered (waitList st2) !! 0 = Some (Fulfilled (VBool false))).
Proof.
  split; [by eexists|]. split; [reflexivity|]. split; [reflexivity|].
  split; [reflexivity|]. split; [reflexivity|].
  vm_compute. discriminate.
Qed.

(** C7.  The code on three [waitForInvite] requests in a row for one
    identity.  The second cancels the waiter of the first; the first resumes,
    answers [false] and, in its [finally], sets the [waiter] of the entry to
    [null], which by then refers to the waiter of the second; so the third
    finds no waiter to cancel: it stores its own and the waiter of the second
    stays pending beside it. *)
Theorem waitForInvite_third_call_keeps_second_waiter :
  let sys := exec Demo.threeWaits
               {| net := Demo.requested; inflight := []; outbox := [] |} in
  outbox sys = [{| seq := 1; body := Payload (VBool false) |}]
  ∧ length (inflight sys) = 2
  ∧ Swarm.invites (swarm (net sys)) !! 0 = Some (Demo.aliceKey, Swarm.Cancelled)
  ∧ Swarm.invites (swarm (net sys)) !! 1 = Some (Demo.aliceKey, Swarm.Pending)
  ∧ Swarm.invites (swarm (net sys)) !! 2 = Some (Demo.aliceKey, Swarm.Pending)
  ∧ waiter <$> (pendingInvites (net sys) !! "a1") = Some (Some 2).
Proof. vm_compute. repeat split; reflexivity. Qed.

(** ** Other spellings of an id

    [Buffer.from] reads upper-case digits and stops at the first character
    that is no digit, so several strings name one channel; the handler
    builds its topic from the string it was given. *)
Remark fromHex_spellings :
  fromHex "AA" = [Byte.xaa] ∧ fromHex "aaz" = [Byte.xaa]
  ∧ toHex [Byte.xaa; Byte.x0f] = "aa0f".
Proof. repeat split; reflexivity. Qed.

Remark waitForIncomingMessage_upper_case :
  let call := waitForIncomingMessage {| wm_channelId := "AA"; wm_timeout := None |}
                Demo.ready in
  channelById Demo.ready "AA" = Some Demo.general
  ∧ WaitList.waitersOf "update:AA" (waitList call.1)
    = [{| WaitList.wid := 0; WaitList.wtimeout := None |}]
  ∧ WaitList.waitersOf (updateTopic Demo.general) (waitList call.1) = [].
Proof. repeat split; reflexivity. Qed.

(** ** Ids on the wire *)

Section WireFacts.

Lemma identityByKey_known (st : Network) (identity : Identity) :
  identity ∈ identities st →
  ∃ found, identityByKey st (toHex (ident_publicKey identity)) = Some found
           ∧ ident_publicKey found = ident_publicKey identity.
Proof.
  intros Hin. unfold identityByKey. rewrite fromHex_toHex.
  destruct (find _ (identities st)) as [found|] eqn:Hf.
  - exists found. split; [done|]. apply find_some in Hf as [_ Heq].
    by apply equals_eq.
  - apply list_elem_of_In in Hin.
    pose proof (find_none _ _ Hf identity Hin) as Hno. simpl in Hno.
    by rewrite equals_refl in Hno.
Qed.

End WireFacts.

(** X1.  The id [serializeChannel] writes for a channel of the instance
    leads [channelById] back to a channel of the instance with the same id,
    whatever was read of its messages; to that very channel when no other
    channel of the instance has its id. *)
Theorem serialized_channel_id_resolves (bs58encode : Buffer → string) (st : Network)
    (channel : Channel) (last : option nat) (messageCount : nat) :
  channel ∈ channels st →
  ∃ found,
    channelById st (cr_id (serializeChannel bs58encode channel last messageCount))
    = Some found
    ∧ found ∈ channels st
    ∧ chan_id found = chan_id channel
    ∧ ((∀ other, other ∈ channels st → chan_id other = chan_id channel → other = channel) →
       found = channel).
Proof.
  intros Hin. simpl.
  destruct (channelById_known st channel Hin) as (found & Hfound & Hid).
  exists found. split; [done|].
  assert (found ∈ channels st) as Hf.
  { unfold channelById in Hfound. apply find_some in Hfound as [H _].
    by apply list_elem_of_In. }
  split; [done|]. split; [done|]. intros Huniq. by apply Huniq.
Qed.

Lemma serialized_channel_id_resolves_witness :
  Demo.general ∈ channels Demo.ready
  ∧ channelById Demo.ready
      (cr_id (serializeChannel Demo.bs58encode Demo.general (Some 4) 9))
    = Some Demo.general.
Proof.
  assert (Demo.general ∈ channels Demo.ready) as Hin
    by (apply list_elem_of_In; simpl; by left).
  split; [exact Hin|].
  destruct (serialized_channel_id_resolves Demo.bs58encode Demo.ready Demo.general
              (Some 4) 9 Hin) as (found & Hfound & _ & _ & Hsame).
  rewrite Hfound. f_equal. apply Hsame.
  intros other Hother _. apply list_elem_of_In in Hother. simpl in Hother.
  by destruct Hother as [<-|[]].
Defined.

(** X2.  The public key [serializeIdentity] writes for an identity of the
    instance leads [identityByKey] back to an identity of the instance with
    the same public key; to that very identity when no other has its key. *)
Theorem serialized_identity_key_resolves (bs58encode : Buffer → string) (M : Type)
    (getChannelIds : Identity → list Buffer) (getMetadata : Identity → option M)
    (emptyObject : M) (st : Network) (identity : Identity) :
  identity ∈ identities st →
  ∃ found,
    identityByKey st
      (ir_publicKey (serializeIdentity bs58encode M getChannelIds getMetadata
                       emptyObject identity))
    = Some found
    ∧ found ∈ identities st
    ∧ ident_publicKey found = ident_publicKey identity
    ∧ ((∀ other, other ∈ identities st →
                 ident_publicKey other = ident_publicKey identity → other = identity) →
       found = identity).
Proof.
  intros Hin. simpl.
  destruct (identityByKey_known st identity Hin) as (found & Hfound & Hid).
  exists found. split; [done|].
  assert (found ∈ identities st) as Hf.
  { unfold identityByKey in Hfound. apply find_some in Hfound as [H _].
    by apply list_elem_of_In. }
  split; [done|]. split; [done|]. intros Huniq. by apply Huniq.
Qed.

Lemma serialized_identity_key_resolves_witness :
  Demo.alice ∈ identities Demo.ready
  ∧ ∃ found,
      identityByKey Demo.ready
        (ir_publicKey (serializeIdentity Demo.bs58encode unit (λ _, [Demo.keyA])
                         (λ _, None) () Demo.alice))
      = Some found
      ∧ ident_publicKey found = Demo.aliceKey.
Proof.
  assert (Demo.alice ∈ identities Demo.ready) as Hin
    by (apply list_elem_of_In; simpl; by left).
  split; [exact Hin|].
  destruct (serialized_identity_key_resolves Demo.bs58encode unit (λ _, [Demo.keyA])
              (λ _, None) () Demo.ready Demo.alice Hin) as (found & Hfound & _ & Hkey & _).
  exists found. split; [exact Hfound | exact Hkey].
Defined.

(** ** The badge *)

Section BadgeFacts.

Variable mc : nat → nat.

Lemma countUnread_counts (chs : list Channel) (acc : Z) :
  countUnread (counts mc) chs acc = Fulfilled (acc + totalUnread mc chs)%Z.
Proof.
  revert acc. induction chs as [|c chs IH]; intros acc; simpl.
  - f_equal. lia.
  - rewrite IH. f_equal. lia.
Qed.

Lemma unreadOf_range (n : nat) (c : Channel) :
  (0 ≤ unreadOf n c)%Z ∧ ((0 ≤ readCountOf c)%Z → (unreadOf n c ≤ Z.of_nat n)%Z).
Proof. unfold unreadOf. lia. Qed.

Lemma totalUnread_nonneg (chs : list Channel) : (0 ≤ totalUnread mc chs)%Z.
Proof.
  induction chs as [|c chs IH]; simpl; [lia|].
  pose proof (proj1 (unreadOf_range (mc (cref c)) c)). lia.
Qed.

Lemma totalUnread_bound (chs : list Channel) :
  (∀ c, c ∈ chs → (0 ≤ readCountOf c)%Z) →
  (totalUnread mc chs ≤ totalMessages mc chs)%Z.
Proof.
  induction chs as [|c chs IH]; intros Hpos; simpl; [lia|].
  pose proof (proj2 (unreadOf_range (mc (cref c)) c) (Hpos c (list_elem_of_here _ _))).
  assert (totalUnread mc chs ≤ totalMessages mc chs)%Z; [|lia].
  apply IH. intros x Hx. apply Hpos. by apply elem_of_cons; right.
Qed.

Lemma totalUnread_zero (chs : list Channel) :
  totalUnread mc chs = 0%Z
  ↔ ∀ c, c ∈ chs → (Z.of_nat (mc (cref c)) ≤ readCountOf c)%Z.
Proof.
  induction chs as [|c chs IH]; simpl.
  - split; [by intros _ c ?%elem_of_nil|done].
  - pose proof (proj1 (unreadOf_range (mc (cref c)) c)) as Hc.
    pose proof (totalUnread_nonneg chs) as Hr. split.
    + intros Hz x [->|Hx]%elem_of_cons.
      * unfold unreadOf in *. lia.
      * apply IH; [lia|done].
    + intros Hall.
      assert (totalUnread mc chs = 0%Z) as ->.
      { apply IH. intros x Hx. apply Hall. by apply elem_of_cons; right. }
      specialize (Hall c (list_elem_of_here _ _)). unfold unreadOf in *. lia.
Qed.



End BadgeFacts.

(** X3.  When every read of a message count fulfils, [updateBadge] sets the
    badge to a number that is never negative, and zero exactly when no
    channel has more messages than its metadata counts as read (a read count
    above the message count takes nothing away from the other channels).
    When no channel has a negative read count, the badge is at most the
    number of all messages. *)
Theorem updateBadge_range (mc : nat → nat) (st : Network) :
  ∃ n : Z,
    updateBadge (counts mc) st = Fulfilled n
    ∧ (0 ≤ n)%Z
    ∧ (n = 0%Z ↔ ∀ c, c ∈ channels st → (Z.of_nat (mc (cref c)) ≤ readCountOf c)%Z)
    ∧ ((∀ c, c ∈ channels st → (0 ≤ readCountOf c)%Z) →
       (n ≤ totalMessages mc (channels st))%Z).
Proof.
  exists (totalUnread mc (channels st)). split.
  - unfold updateBadge. by rewrite countUnread_counts.
  - split; [apply totalUnread_nonneg|].
    split; [apply totalUnread_zero | apply totalUnread_bound].
Qed.

Lemma updateBadge_range_witness :
  (∀ c, c ∈ channels Sample.two → (0 ≤ readCountOf c)%Z)
  ∧ ∃ n : Z,
      updateBadge (counts Sample.messageCounts) Sample.two = Fulfilled n
      ∧ (0 ≤ n ≤ totalMessages Sample.messageCounts (channels Sample.two))%Z.
Proof.
  assert (∀ c, c ∈ channels Sample.two → (0 ≤ readCountOf c)%Z) as Hpos.
  { intros c Hc%list_elem_of_In. simpl in Hc.
    destruct Hc as [<-|[<-|[]]]; vm_compute; discriminate. }
  split; [exact Hpos|].
  destruct (updateBadge_range Sample.messageCounts Sample.two)
    as (n & Hn & Hlow & _ & Hhigh).
  exists n. split; [exact Hn|]. split; [exact Hlow | exact (Hhigh Hpos)].
Defined.

(** Without that condition the bound fails: a channel of three messages
    whose stored read count is -5 puts 8 on the badge. *)
Remark updateBadge_negative_readCount :
  updateBadge (counts Sample.messageCounts) Sample.overdrawn = Fulfilled 8%Z
  ∧ totalMessages Sample.messageCounts (channels Sample.overdrawn) = 3%Z.
Proof. split; reflexivity. Qed.


(** X5.  When the read of a channel's message count rejects and the reads of
    all channels before it fulfil, [updateBadge] rejects with that error
    without setting the badge, whatever the channels after it would give. *)
Theorem updateBadge_rejects (getMessageCount : nat → Outcome nat) (st : Network)
    (before after : list Channel) (c : Channel) (e : JSError) :
  channels st = before ++ c :: after →
  (∀ x, x ∈ before → ∃ n, getMessageCount (cref x) = Fulfilled n) →
  getMessageCount (cref c) = Rejected e →
  updateBadge getMessageCount st = Rejected e.
Proof.
  intros Hchs Hbefore Hc. unfold updateBadge. rewrite Hchs. clear Hchs.
  generalize 0%Z as acc.
  induction before as [|x before IH]; intros acc; simpl.
  - by rewrite Hc.
  - destruct (Hbefore x (list_elem_of_here _ _)) as [n ->].
    apply IH. intros y Hy. apply Hbefore. by apply elem_of_cons; right.
Qed.


Lemma updateBadge_rejects_witness :
  channels Sample.two = [Sample.news] ++ Sample.random :: []
  ∧ updateBadge Sample.brokenRandom Sample.two = Rejected (mkError "Database is closed").
Proof.
  split; [reflexivity|].
  apply (updateBadge_rejects Sample.brokenRandom Sample.two [Sample.news] []
           Sample.random); [reflexivity| |reflexivity].
  intros x ->%list_elem_of_singleton. by exists 10.
Defined.

(** ** Channel metadata *)

Section MetadataFacts.

Lemma channelById_none (st : Network) (id : string) :
  (∀ c, c ∈ channels st → chan_id c ≠ fromHex id) → channelById st id = None.
Proof.
  intros Hno. unfold channelById.
  destruct (find _ (channels st)) as [c|] eqn:Hf; [|done].
  apply find_some in Hf as [Hin Heq]. apply equals_eq in Heq.
  by destruct (Hno c (proj2 (list_elem_of_In _ _) Hin)).
Qed.

(** A lookup by id does not see metadata. *)
Lemma channelById_setMetadata (st : Network) (id : string) (c : nat) (m : ChanMeta) :
  channelById (set_channels (setMetadata c m) st) id
  = (λ x, if Nat.eqb (cref x) c then withMetadata m x else x) <$> channelById st id.
Proof.
  unfold channelById, setMetadata. simpl.
  induction (channels st) as [|x chs IH]; [done|].
  simpl. destruct (Nat.eqb (cref x) c) eqn:E; simpl;
    destruct (equals (chan_id x) (fromHex id)); simpl; rewrite ?E; done.
Qed.

Lemma mergeMeta_again (old new : ChanMeta) :
  mergeMeta (mergeMeta old new) new = mergeMeta old new.
Proof.
  unfold mergeMeta. simpl. by destruct (readCount new), (meta_isFeed new).
Qed.

Lemma setMetadata_again (c : nat) (m : ChanMeta) (chs : list Channel) :
  setMetadata c m (setMetadata c m chs) = setMetadata c m chs.
Proof.
  unfold setMetadata. rewrite map_map. apply map_ext. intros x.
  destruct (Nat.eqb (cref x) c) eqn:E; simpl; by rewrite E.
Qed.

End MetadataFacts.

(** X6.  On a ready instance, a [waitForIncomingMessage] or an
    [updateChannelMetadata] request whose [channelId] decodes to the id of no
    channel is answered at once with the error [Channel not found: ] followed
    by the string as it was sent; the instance is left as it is: no waiter is
    registered and no metadata is written. *)
Theorem unknown_channel_is_reported (sys : System) (sq : nat) (id : string) :
  isReady (net sys) = true →
  (∀ c, c ∈ channels (net sys) → chan_id c ≠ fromHex id) →
  let answer :=
    {| net := net sys; inflight := inflight sys;
       outbox := outbox sys
                 ++ [{| seq := sq;
                        body := Failure ("Channel not found: " +:+ id)
                                  (Some (stack (mkError ("Channel not found: " +:+ id)))) |}] |} in
  (∀ timeout,
     step sys (Request OpWaitForIncomingMessage waitForIncomingMessage sq
                 {| wm_channelId := id; wm_timeout := timeout |}) = answer)
  ∧ (∀ m,
       step sys (Request OpUpdateChannelMetadata updateChannelMetadata sq
                   {| um_channelId := id; um_metadata := m |}) = answer).
Proof.
  intros Hready Hno answer. apply channelById_none in Hno.
  split; intros x; simpl; unfold handle; rewrite Hready; simpl.
  - unfold waitForIncomingMessage. simpl. by rewrite Hno.
  - unfold updateChannelMetadata. simpl. by rewrite Hno.
Qed.

Lemma unknown_channel_is_reported_witness :
  let sys := {| net := Demo.ready; inflight := []; outbox := [] |} in
  isReady (net sys) = true
  ∧ (∀ c, c ∈ channels (net sys) → chan_id c ≠ fromHex "ff")
  ∧ step sys (Request OpWaitForIncomingMessage waitForIncomingMessage 4
                {| wm_channelId := "ff"; wm_timeout := None |})
    = {| net := Demo.ready; inflight := [];
         outbox := [{| seq := 4;
                       body := Failure "Channel not found: ff"
                                 (Some "Error: Channel not found: ff") |}] |}.
Proof.
  intros sys.
  assert (∀ c, c ∈ channels (net sys) → chan_id c ≠ fromHex "ff") as Hno.
  { intros c Hc%list_elem_of_In. simpl in Hc. by destruct Hc as [<-|[]]. }
  split; [reflexivity|]. split; [exact Hno|].
  exact (proj1 (unknown_channel_is_reported sys 4 "ff" eq_refl Hno) None).
Defined.

(** X7.  [updateChannelMetadata] merges: sending the same metadata a second
    time leaves the instance as the first time left it; and it writes
    nothing but metadata: the ids and the names of the channels, in their
    order, stay as they were. *)
Theorem updateChannelMetadata_idempotent (p : MetadataPayload) (st : Network) :
  let st1 := (updateChannelMetadata p st).1 in
  (updateChannelMetadata p st1).1 = st1
  ∧ chan_id <$> channels st1 = chan_id <$> channels st
  ∧ chan_name <$> channels st1 = chan_name <$> channels st
  ∧ cref <$> channels st1 = cref <$> channels st.
Proof.
  unfold updateChannelMetadata.
  destruct (channelById st (um_channelId p)) as [channel|] eqn:Hfound; simpl.
  - split.
    + rewrite channelById_setMetadata, Hfound. simpl. rewrite Nat.eqb_refl. simpl.
      rewrite mergeMeta_again. unfold set_channels. simpl.
      by rewrite setMetadata_again.
    + unfold setMetadata.
      repeat split; rewrite <- list_fmap_compose; apply list_fmap_ext;
        intros i x _; simpl; by destruct (Nat.eqb (cref x) (cref channel)).
  - by rewrite Hfound.
Qed.



(** ** The chain map *)

(** X9.  A chain-map update that arrives while nobody waits is not lost:
    after a turn of [runChainLoop] that saw an update, the next
    [waitForChainMapUpdate] resolves before any [await], registers no waiter
    and clears the flag; the call after that one finds the flag cleared and
    waits, as the only waiter of the topic. *)
Theorem chain_update_is_not_lost (st : Network) (timeout timeout' : option nat) :
  let st1 := (runChainLoop_turn (Fulfilled true) st).1 in
  ∃ st2,
    waitForChainMapUpdate timeout st1 = (st2, Fin (Fulfilled VUndefined))
    ∧ chainMapUpdated st2 = false
    ∧ waitList st2 = waitList st1
    ∧ ∃ (w : nat) (k : Outcome Value → Network → Network * Task) (st3 : Network),
        waitForChainMapUpdate timeout' st2 = (st3, Await (WaitListEntry w) k)
        ∧ WaitList.waitersOf chainTopic (waitList st3)
          = [{| WaitList.wid := w; WaitList.wtimeout := timeout' |}].
Proof.
  simpl. eexists. split; [reflexivity|]. split; [reflexivity|]. split; [reflexivity|].
  unfold waitForChainMapUpdate, await. simpl.
  eexists _, _, _. split; [reflexivity|]. simpl.
  unfold WaitList.waitersOf. simpl. rewrite lookup_insert_eq. simpl.
  by rewrite lookup_delete_eq.
Qed.

(** X10.  A caller that waits for the chain map is served by the next turn
    of [runChainLoop] that sees an update: its waiter is resolved, no waiter
    is left on the topic, and when the caller resumes it resolves with
    [undefined] and clears the flag the turn had set.  A turn that sees no
    update, or whose wait rejects and ends the loop, leaves the instance as
    it is, the caller still waiting. *)
Theorem chain_waiter_is_served (st : Network) (timeout : option nat) :
  chainMapUpdated st = false →
  ∃ (w : nat) (k : Outcome Value → Network → Network * Task) (st1 : Network),
    waitForChainMapUpdate timeout st = (st1, Await (WaitListEntry w) k)
    ∧ WaitList.registered chainTopic w (waitList st1)
    ∧ (let st2 := (runChainLoop_turn (Fulfilled true) st1).1 in
       chainMapUpdated st2 = true
       ∧ WaitList.delivered (waitList st2) !! w = Some (Fulfilled VUndefined)
       ∧ WaitList.waitersOf chainTopic (waitList st2) = []
       ∧ ∃ st3, k (Fulfilled VUndefined) st2 = (st3, Fin (Fulfilled VUndefined))
                ∧ chainMapUpdated st3 = false)
    ∧ runChainLoop_turn (Fulfilled false) st1 = (st1, true)
    ∧ ∀ e, runChainLoop_turn (Rejected e) st1 = (st1, false).
Proof.
  intros Hflag. unfold waitForChainMapUpdate, await. rewrite Hflag. simpl.
  eexists _, _, _. split; [reflexivity|]. simpl.
  assert (WaitList.registered chainTopic (WaitList.next (waitList st))
            (WaitList.waitFor chainTopic timeout (waitList st)).2) as Hreg.
  { exists {| WaitList.wid := WaitList.next (waitList st); WaitList.wtimeout := timeout |}.
    rewrite waitFor_registers. split; [|reflexivity].
    apply elem_of_app. right. by apply list_elem_of_singleton. }
  split; [exact Hreg|]. split; [|done].
  split; [done|]. split; [exact (resolve_delivers chainTopic VUndefined _ _ Hreg)|]. split.
  - unfold WaitList.waitersOf. simpl. by rewrite lookup_delete_eq.
  - eexists. split; reflexivity.
Qed.

Lemma chain_waiter_is_served_witness :
  chainMapUpdated Demo.ready = false
  ∧ ∃ (w : nat) (k : Outcome Value → Network → Network * Task) (st1 : Network),
      waitForChainMapUpdate (Some 100) Demo.ready = (st1, Await (WaitListEntry w) k)
      ∧ WaitList.delivered (waitList (runChainLoop_turn (Fulfilled true) st1).1) !! w
        = Some (Fulfilled VUndefined).
Proof.
  split; [reflexivity|].
  destruct (chain_waiter_is_served Demo.ready (Some 100) eq_refl)
    as (w & k & st1 & Hcall & _ & (_ & Hserved & _) & _).
  exists w, k, st1. split; [exact Hcall | exact Hserved].
Defined.

(** ** The life of an update loop *)

Section LoopLife.

Lemma runUpdateLoop_keeps (channel : Channel) (timeout : option nat) (st : Network) :
  channels (runUpdateLoop channel timeout st) = channels st
  ∧ updatedChannels (runUpdateLoop channel timeout st) = updatedChannels st.
Proof.
  unfold runUpdateLoop. destruct (negb _); [done|]. by case_bool_decide.
Qed.

(** Where the [finally] block leaves the channel of the activation. *)
Lemma loopFinally_clears (t : LoopTask) (st : Network) :
  loops_ok st → t ∈ loopTasks st →
  updateLoops (loopFinally t st) !! taskChannel t = None
  ∧ activations (taskChannel t) (loopFinally t st) = [].
Proof.
  intros Hok Ht.
  pose proof (loops_ok_finally t st Hok Ht) as [_ Hreg _ _].
  assert (updateLoops (loopFinally t st) !! taskChannel t = None) as Hnone
    by apply lookup_delete_eq.
  split; [exact Hnone|].
  apply filter_absent. intros Hin%Hreg. rewrite Hnone in Hin. by destruct Hin.
Qed.

(** A start for a listed channel without registry entry. *)
Lemma runUpdateLoop_starts (channel : Channel) (timeout : option nat) (st : Network) :
  includes channel (channels st) = true →
  updateLoops st !! cref channel = None →
  activations (cref channel) st = [] →
  let task := {| lt_channel := channel; lt_timeout := timeout;
                 lt_entry := nextRef st; lt_phase := AwaitingEntry |} in
  updateLoops (runUpdateLoop channel timeout st) !! cref channel = Some (nextRef st)
  ∧ activations (cref channel) (runUpdateLoop channel timeout st) = [task].
Proof.
  intros Hinc Hnone Hact task. unfold runUpdateLoop. rewrite Hinc. simpl.
  rewrite bool_decide_eq_false_2; [|rewrite Hnone; by intros [? ?]].
  simpl. split; [apply lookup_insert_eq|].
  unfold activations in *. simpl. rewrite List.filter_app, Hact. simpl.
  by rewrite Nat.eqb_refl.
Qed.

End LoopLife.

(** X11.  An update of a channel that arrives while nobody waits is not
    lost: once an update loop has come back from [updateBadge], the next
    [waitForIncomingMessage] under any id that resolves to the channel
    object of the loop, whatever name or metadata the object has by now,
    resolves with [true] before any [await], and the call after that one
    waits. *)
Theorem channel_update_is_not_lost (st : Network) (entry : nat) (task : LoopTask)
    (id : string) (found : Channel) (timeout timeout' : option nat) :
  findTask entry AwaitingBadge st = Some task →
  channelById st id = Some found →
  cref found = cref (lt_channel task) →
  let st1 := loopBadgeSettled entry (Fulfilled ()) st in
  ∃ st2,
    waitForIncomingMessage {| wm_channelId := id; wm_timeout := timeout |} st1
    = (st2, Fin (Fulfilled (VBool true)))
    ∧ ∃ (w : nat) (k : Outcome Value → Network → Network * Task) (st3 : Network),
        waitForIncomingMessage {| wm_channelId := id; wm_timeout := timeout' |} st2
        = (st3, Await (WaitListEntry w) k).
Proof.
  intros Hfind Hfound Hsame st1.
  assert (channels st1 = channels st
          ∧ cref found ∈ updatedChannels st1) as [Hchs Hdirty].
  { subst st1. unfold loopBadgeSettled. rewrite Hfind.
    destruct (runUpdateLoop_keeps (lt_channel task) (lt_timeout task)
                (loopFinally task
                   (set_waitList
                      (WaitList.resolve (updateTopic (lt_channel task)) (VBool true))
                      (set_updatedChannels (union {[cref (lt_channel task)]}) st))))
      as [-> ->].
    simpl. split; [done|]. rewrite Hsame.
    apply elem_of_union. left. by apply elem_of_singleton. }
  assert (∀ s, channels s = channels st → channelById s id = Some found) as Hby.
  { intros s Hs. unfold channelById in *. by rewrite Hs. }
  clearbody st1.
  set (st2 := set_updatedChannels (λ s, s ∖ {[cref found]}) st1).
  assert (waitForIncomingMessage {| wm_channelId := id; wm_timeout := timeout |} st1
          = (st2, Fin (Fulfilled (VBool true)))) as Hfirst.
  { unfold waitForIncomingMessage. simpl. rewrite (Hby st1 Hchs).
    by rewrite bool_decide_eq_true_2. }
  assert (cref found ∉ updatedChannels st2) as Hclean.
  { intros [_ Hn]%elem_of_difference. apply Hn. by apply elem_of_singleton. }
  exists st2. split; [exact Hfirst|].
  unfold waitForIncomingMessage, await. simpl. rewrite (Hby st2 Hchs).
  rewrite bool_decide_eq_false_2; [|exact Hclean].
  by eexists _, _, _.
Qed.

(** X12.  When the update loop of a channel comes back from [updateBadge],
    on an instance whose loops are in order, it marks the channel updated
    and starts over only if the protocol object still lists the channel:
    then the channel has exactly one activation again, waiting on a new
    entry; otherwise it has none and no registry entry is left. *)
Theorem update_loop_rearms (st : Network) (entry : nat) (task : LoopTask) :
  loops_ok st →
  findTask entry AwaitingBadge st = Some task →
  let channel := lt_channel task in
  let st1 := loopBadgeSettled entry (Fulfilled ()) st in
  cref channel ∈ updatedChannels st1
  ∧ (includes channel (channels st) = true →
     updateLoops st1 !! cref channel = Some (nextRef st)
     ∧ activations (cref channel) st1
       = [{| lt_channel := channel; lt_timeout := lt_timeout task;
             lt_entry := nextRef st; lt_phase := AwaitingEntry |}])
  ∧ (includes channel (channels st) = false →
     updateLoops st1 !! cref channel = None ∧ activations (cref channel) st1 = []).
Proof.
  intros Hok Hfind channel st1.
  pose proof (findTask_elem _ _ _ _ Hfind) as [Hin _].
  set (st0 := set_waitList (WaitList.resolve (updateTopic channel) (VBool true))
                (set_updatedChannels (union {[cref channel]}) st)).
  assert (loops_ok st0) as Hok0 by (by destruct Hok).
  destruct (loopFinally_clears task st0 Hok0 Hin) as [Hnone Hact].
  assert (st1 = runUpdateLoop channel (lt_timeout task) (loopFinally task st0)) as ->.
  { subst st1. unfold loopBadgeSettled. by rewrite Hfind. }
  split; [|split].
  - destruct (runUpdateLoop_keeps channel (lt_timeout task) (loopFinally task st0))
      as [_ ->].
    simpl. apply elem_of_union. left. by apply elem_of_singleton.
  - intros Hinc.
    by apply (runUpdateLoop_starts channel (lt_timeout task) (loopFinally task st0)).
  - intros Hinc. unfold runUpdateLoop. simpl. rewrite Hinc. simpl. by split.
Qed.

(** X13.  When one of the two [await]s of an update loop rejects, on an
    instance whose loops are in order, the loop ends without a trace for the
    callers: nothing is marked and the wait list is as it was; the registry
    entry of the channel is removed, so a later [runUpdateLoop] for the
    channel, if the protocol object lists it, starts the loop again. *)
Theorem update_loop_ends_quietly (st : Network) (entry : nat) (task : LoopTask)
    (phase : LoopPhase) (e : JSError) (timeout : option nat) :
  loops_ok st →
  findTask entry phase st = Some task →
  let channel := lt_channel task in
  let st1 := match phase with
             | AwaitingEntry => loopEntrySettled entry (Rejected e) st
             | AwaitingBadge => loopBadgeSettled entry (Rejected e) st
             end in
  updatedChannels st1 = updatedChannels st
  ∧ waitList st1 = waitList st
  ∧ updateLoops st1 !! cref channel = None
  ∧ activations (cref channel) st1 = []
  ∧ (includes channel (channels st1) = true →
     activations (cref channel) (runUpdateLoop channel timeout st1)
     = [{| lt_channel := channel; lt_timeout := timeout;
           lt_entry := nextRef st1; lt_phase := AwaitingEntry |}]).
Proof.
  intros Hok Hfind channel st1.
  pose proof (findTask_elem _ _ _ _ Hfind) as [Hin _].
  destruct (loopFinally_clears task st Hok Hin) as [Hnone Hact].
  assert (st1 = loopFinally task st) as ->.
  { subst st1. destruct phase.
    - unfold loopEntrySettled. by rewrite Hfind.
    - unfold loopBadgeSettled. by rewrite Hfind. }
  split; [done|]. split; [done|]. split; [done|]. split; [done|].
  intros Hinc.
  by apply (runUpdateLoop_starts channel timeout (loopFinally task st)).
Qed.

Section LoopSamples.

Lemma woken_ok : loops_ok Sample.woken.
Proof. apply loops_ok_exec. by apply loops_ok_fresh. Qed.

Lemma looping_ok : loops_ok Demo.looping.
Proof. apply loops_ok_exec. by apply loops_ok_fresh. Qed.

End LoopSamples.

Lemma channel_update_is_not_lost_witness :
  findTask 2 AwaitingBadge Sample.wokenRead = Some Sample.wokenTask
  ∧ channelById Sample.wokenRead "aa" = Some Sample.generalRead
  ∧ cref Sample.generalRead = cref (lt_channel Sample.wokenTask)
  ∧ Sample.generalRead ≠ lt_channel Sample.wokenTask
  ∧ ∃ st2,
      waitForIncomingMessage {| wm_channelId := "aa"; wm_timeout := None |}
        (loopBadgeSettled 2 (Fulfilled ()) Sample.wokenRead)
      = (st2, Fin (Fulfilled (VBool true))).
Proof.
  split; [reflexivity|]. split; [reflexivity|]. split; [reflexivity|].
  split; [discriminate|].
  destruct (channel_update_is_not_lost Sample.wokenRead 2 Sample.wokenTask "aa"
              Sample.generalRead None None eq_refl eq_refl eq_refl)
    as (st2 & Hfirst & _).
  exists st2. exact Hfirst.
Defined.

Lemma update_loop_rearms_witness :
  loops_ok Sample.woken
  ∧ findTask 2 AwaitingBadge Sample.woken = Some Sample.wokenTask
  ∧ includes Demo.general (channels Sample.woken) = true
  ∧ activations 1 (loopBadgeSettled 2 (Fulfilled ()) Sample.woken)
    = [{| lt_channel := Demo.general; lt_timeout := None;
          lt_entry := 3; lt_phase := AwaitingEntry |}].
Proof.
  split; [exact woken_ok|]. split; [reflexivity|]. split; [reflexivity|].
  destruct (update_loop_rearms Sample.woken 2 Sample.wokenTask woken_ok eq_refl)
    as (_ & Hlisted & _).
  exact (proj2 (Hlisted eq_refl)).
Defined.

Lemma update_loop_ends_quietly_witness :
  loops_ok Demo.looping
  ∧ findTask 2 AwaitingEntry Demo.looping = Some Sample.loopingTask
  ∧ activations 1 (loopEntrySettled 2 (Rejected (mkError "Channel removed")) Demo.looping)
    = []
  ∧ waitList (loopEntrySettled 2 (Rejected (mkError "Channel removed")) Demo.looping)
    = waitList Demo.looping.
Proof.
  split; [exact looping_ok|]. split; [reflexivity|].
  destruct (update_loop_ends_quietly Demo.looping 2 Sample.loopingTask AwaitingEntry
              (mkError "Channel removed") None looping_ok eq_refl)
    as (_ & Hwl & _ & Hact & _).
  split; [exact Hact | exact Hwl].
Defined.

(** ** Renaming, when the name is free *)

Section RenameEffects.

Lemma renameChannel_names (c : nat) (n y : string) (chs : list Channel) :
  y ∈ chan_name <$> renameChannel c n chs → y = n ∨ y ∈ chan_name <$> chs.
Proof.
  induction chs as [|x chs IH]; simpl; [by intros ?%elem_of_nil|].
  intros [->|Hy]%elem_of_cons.
  - destruct (Nat.eqb (cref x) c); simpl; [by left|right; apply list_elem_of_here].
  - destruct (IH Hy) as [->|Hin]; [by left|right; by apply elem_of_cons; right].
Qed.

Lemma renameChannel_absent (c : nat) (n : string) (chs : list Channel) :
  c ∉ cref <$> chs → renameChannel c n chs = chs.
Proof.
  intros Hc. unfold renameChannel. rewrite <- (map_id chs) at 2. apply map_ext_in.
  intros y Hy. destruct (Nat.eqb_spec (cref y) c) as [Heq|]; [|done].
  destruct Hc. rewrite <- Heq. apply list_elem_of_fmap_2. by apply list_elem_of_In.
Qed.

Lemma renameChannel_unique (c : nat) (n : string) (chs : list Channel) :
  NoDup (cref <$> chs) → NoDup (chan_name <$> chs) →
  n ∉ chan_name <$> chs →
  NoDup (chan_name <$> renameChannel c n chs).
Proof.
  induction chs as [|x chs IH]; intros Hrefs Hnames Hfree; [constructor|].
  rewrite fmap_cons in Hrefs. rewrite fmap_cons in Hnames. rewrite fmap_cons in Hfree.
  apply NoDup_cons in Hrefs as [Hx Hrefs]. apply NoDup_cons in Hnames as [Hn Hnames].
  apply not_elem_of_cons in Hfree as [Hne Hfree].
  simpl. destruct (Nat.eqb_spec (cref x) c) as [<-|Hother]; simpl.
  - rewrite renameChannel_absent; [|done]. apply NoDup_cons. by split.
  - apply NoDup_cons. split; [|by apply IH].
    intros [Heq|Hin]%renameChannel_names; [by destruct Hne|done].
Qed.

Lemma getChannel_free (chs : list Channel) (n : string) :
  getChannel chs n = None → n ∉ chan_name <$> chs.
Proof.
  intros Hnone (c & -> & Hc)%list_elem_of_fmap.
  destruct (getChannel_taken chs (chan_name c) c Hc eq_refl) as [x Hx]. congruence.
Qed.

(** A lookup by id does not see names. *)
Lemma channelById_renameChannel (st : Network) (id : string) (c : nat) (n : string) :
  channelById (set_channels (renameChannel c n) st) id
  = (λ x, if Nat.eqb (cref x) c
          then {| cref := cref x; chan_id := chan_id x; chan_publicKey := chan_publicKey x;
                  chan_name := n; chan_isFeed := chan_isFeed x;
                  chan_metadata := chan_metadata x |}
          else x) <$> channelById st id.
Proof.
  unfold channelById, renameChannel. simpl.
  induction (channels st) as [|x chs IH]; [done|].
  simpl. destruct (Nat.eqb (cref x) c) eqn:E; simpl;
    destruct (equals (chan_id x) (fromHex id)); simpl; rewrite ?E; done.
Qed.

End RenameEffects.

(** X14.  [renameIdentityPair] keeps the names of the channels distinct: on
    an instance whose channels are distinct objects with distinct names, the
    names are still distinct after the handler has run up to its first
    [await], whether it renamed a channel or rejected. *)
Theorem rename_keeps_names_unique (p : RenamePayload) (st : Network) :
  NoDup (cref <$> channels st) →
  NoDup (chan_name <$> channels st) →
  NoDup (chan_name <$> channels (renameIdentityPair p st).1).
Proof.
  intros Hrefs Hnames. unfold renameIdentityPair.
  destruct (truthy (rn_channelId p) && _); [done|].
  destruct (truthy (rn_identityKey p) && _); [done|].
  case_bool_decide as Hc; [done|].
  case_bool_decide as Hi; [done|].
  assert (getChannel (channels st) (rn_newName p) = None) as Hfree.
  { destruct (getChannel _ _) eqn:E; [|done]. destruct Hc. by eexists. }
  apply getChannel_free in Hfree.
  destruct (if truthy (rn_channelId p) then _ else None) as [c|]; simpl.
  - by apply renameChannel_unique.
  - unfold renameIdentityPair_identity.
    by destruct (if truthy (rn_identityKey p) then _ else None).
Qed.

Lemma rename_keeps_names_unique_witness :
  let p := {| rn_channelId := Some "01"; rn_identityKey := None; rn_newName := "world" |} in
  NoDup (cref <$> channels Sample.two)
  ∧ NoDup (chan_name <$> channels Sample.two)
  ∧ chan_name <$> channels (renameIdentityPair p Sample.two).1 = ["world"; "random"]
  ∧ NoDup (chan_name <$> channels (renameIdentityPair p Sample.two).1).
Proof.
  intros p.
  assert (NoDup (cref <$> channels Sample.two)) as Hrefs.
  { simpl. apply NoDup_cons. split; [|apply NoDup_singleton].
    intros Hin%list_elem_of_singleton. discriminate. }
  assert (NoDup (chan_name <$> channels Sample.two)) as Hnames.
  { simpl. apply NoDup_cons. split; [|apply NoDup_singleton].
    intros Hin%list_elem_of_singleton. discriminate. }
  split; [exact Hrefs|]. split; [exact Hnames|]. split; [reflexivity|].
  exact (rename_keeps_names_unique p Sample.two Hrefs Hnames).
Defined.

(** X15.  A channel rename to a free name takes effect before the first
    [await]: the channel the id resolves to is the same object with the same
    id under the new name, so the same [channelId] still resolves to it; and
    the same request sent again is rejected without a change, the name being
    taken now by the channel itself. *)
Theorem rename_channel_takes_effect (p : RenamePayload) (st : Network) (c : Channel) :
  truthy (rn_channelId p) = true →
  channelById st (default "" (rn_channelId p)) = Some c →
  rn_identityKey p = None →
  getChannel (channels st) (rn_newName p) = None →
  getIdentity (identities st) (rn_newName p) = None →
  let st1 := (renameIdentityPair p st).1 in
  ∃ c',
    channelById st1 (default "" (rn_channelId p)) = Some c'
    ∧ cref c' = cref c ∧ chan_id c' = chan_id c ∧ chan_name c' = rn_newName p
    ∧ identities st1 = identities st
    ∧ ∃ e, renameIdentityPair p st1 = (st1, Fin (Rejected e)).
Proof.
  intros Htruthy Hfound Hkey Hc Hi st1.
  assert (st1 = set_channels (renameChannel (cref c) (rn_newName p)) st) as ->.
  { subst st1. unfold renameIdentityPair.
    by rewrite Htruthy, Hfound, Hkey, Hc, Hi. }
  pose proof (channelById_renameChannel st (default "" (rn_channelId p)) (cref c)
                (rn_newName p)) as Hby.
  rewrite Hfound in Hby. simpl in Hby. rewrite Nat.eqb_refl in Hby.
  eexists. split; [exact Hby|]. simpl.
  split; [done|]. split; [done|]. split; [done|]. split; [done|].
  unfold renameIdentityPair. rewrite Htruthy, Hby, Hkey. simpl.
  rewrite bool_decide_eq_true_2; [by eexists|].
  match type of Hby with _ = Some ?x => apply (getChannel_taken _ _ x) end;
    [|reflexivity].
  unfold channelById in Hby. apply find_some in Hby as [Hin _].
  apply list_elem_of_In. exact Hin.
Qed.

Lemma rename_channel_takes_effect_witness :
  let p := {| rn_channelId := Some "01"; rn_identityKey := None; rn_newName := "world" |} in
  truthy (rn_channelId p) = true
  ∧ channelById Sample.two "01" = Some Sample.news
  ∧ ∃ c', channelById (renameIdentityPair p Sample.two).1 "01" = Some c'
          ∧ chan_name c' = "world"
          ∧ ∃ e, renameIdentityPair p (renameIdentityPair p Sample.two).1
                 = ((renameIdentityPair p Sample.two).1, Fin (Rejected e)).
Proof.
  intros p. split; [reflexivity|]. split; [reflexivity|].
  destruct (rename_channel_takes_effect p Sample.two Sample.news
              eq_refl eq_refl eq_refl eq_refl eq_refl)
    as (c' & Hby & _ & _ & Hname & _ & Hagain).
  exists c'. split; [exact Hby|]. split; [exact Hname | exact Hagain].
Defined.

(** ** Invites: errors and order *)

Section InviteOrder.

Variable bs58encode : Buffer → string.
Variable issueRequest :
  Identity → Buffer → nat → Buffer * Buffer * (EncryptedInvite → Invite + JSError).

Lemma identityByKey_none (st : Network) (key : string) :
  (∀ i, i ∈ identities st → ident_publicKey i ≠ fromHex key) → identityByKey st key = None.
Proof.
  intros Hno. unfold identityByKey.
  destruct (find _ (identities st)) as [i|] eqn:Hf; [|done].
  apply find_some in Hf as [Hin Heq]. apply equals_eq in Heq.
  by destruct (Hno i (proj2 (list_elem_of_In _ _) Hin)).
Qed.

(** X16.  For a key that decodes to the public key of no identity,
    [requestInvite] and [waitForInvite] reject with [Identity not found: ]
    followed by the key as sent, and leave the instance as it is: no entry
    is made and no waiter is created or cancelled. *)
Theorem unknown_identity_is_reported (st : Network) (key : string) :
  (∀ i, i ∈ identities st → ident_publicKey i ≠ fromHex key) →
  requestInvite bs58encode issueRequest key st
  = (st, Fin (Rejected (mkError ("Identity not found: " +:+ key))))
  ∧ waitForInvite key st
    = (st, Fin (Rejected (mkError ("Identity not found: " +:+ key)))).
Proof.
  intros Hno%identityByKey_none. unfold requestInvite, waitForInvite.
  by rewrite Hno.
Qed.

(** X17.  [waitForInvite] needs a request: for an identity without a pending
    entry it rejects with [No pending invites for: ] and the identity's name,
    changing nothing.  After a [requestInvite] for the identity it suspends
    instead, on a new waiter of the swarm for the very request id that
    [requestInvite] obtained, and the entry refers to that waiter. *)
Theorem waitForInvite_needs_request (st : Network) (key : string) (identity : Identity) :
  identityByKey st key = Some identity →
  pendingInvites st !! key = None →
  waitForInvite key st
  = (st, Fin (Rejected (mkError ("No pending invites for: " +:+ ident_name identity))))
  ∧ (let st1 := (requestInvite bs58encode issueRequest key st).1 in
     let issued := (issueRequest identity (peerId st) (nextRef st)).1.1 in
     ∃ (w : nat) (k : Outcome EncryptedInvite → Network → Network * Task) (st2 : Network),
       waitForInvite key st1 = (st2, Await (SwarmInvite w) k)
       ∧ Swarm.invites (swarm st1) !! w = None
       ∧ Swarm.invites (swarm st2) !! w = Some (issued, Swarm.Pending)
       ∧ (waiter <$> pendingInvites st2 !! key) = Some (Some w)).
Proof.
  intros Hid Hp. split.
  - unfold waitForInvite. by rewrite Hid, Hp.
  - unfold requestInvite. rewrite Hid, Hp.
    destruct (issueRequest identity (peerId st) (nextRef st))
      as [[requestId request] decrypt] eqn:Hissue. simpl.
    unfold waitForInvite, identityByKey in *. simpl. rewrite Hid.
    rewrite lookup_insert_eq. simpl.
    eexists _, _, _. split; [reflexivity|]. simpl.
    split; [apply not_elem_of_dom, is_fresh|].
    split; [apply lookup_insert_eq|].
    unfold assignWaiter. rewrite lookup_fmap, lookup_insert_eq. simpl.
    by rewrite Nat.eqb_refl.
Qed.

(** X18.  What the last step of an accepted invite leaves: the entry of the
    identity key is gone and no other entry is touched, the channel is among
    those joined to the swarm, and, if the protocol object lists the channel,
    the registry of update loops has an entry for it.  A [requestInvite] for
    the identity after that issues a new request instead of answering from
    the entry of the accepted one. *)
Theorem accepted_invite_cleans_up (key : string) (channel : Channel) (st : Network) :
  let st1 := (acceptInvite_join key channel st).1 in
  pendingInvites st1 !! key = None
  ∧ (∀ other, other ≠ key → pendingInvites st1 !! other = pendingInvites st !! other)
  ∧ cref channel ∈ Swarm.joined (swarm st1)
  ∧ (includes channel (channels st) = true → is_Some (updateLoops st1 !! cref channel))
  ∧ (∀ identity, identityByKey st1 key = Some identity →
       ∃ st2,
         requestInvite bs58encode issueRequest key st1
         = (st2, Fin (Fulfilled (VRequest
                   (bs58encode (issueRequest identity (peerId st1) (nextRef st1)).1.2))))
         ∧ (pref <$> pendingInvites st2 !! key) = Some (nextRef st1)).
Proof.
  intros st1.
  set (st0 := runUpdateLoop channel None (set_swarm (Swarm.joinChannel (cref channel)) st)).
  assert (pendingInvites st0 = pendingInvites st ∧ swarm st0 = Swarm.joinChannel (cref channel) (swarm st)
          ∧ (includes channel (channels st) = true → is_Some (updateLoops st0 !! cref channel)))
    as (Hreg & Hsw & Hloop).
  { subst st0. unfold runUpdateLoop. simpl.
    destruct (includes channel (channels st)); simpl; [|by split].
    case_bool_decide as Hhas; simpl; [by split|].
    split; [done|]. split; [done|]. intros _. rewrite lookup_insert_eq. by eexists. }
  assert (pendingInvites st1 !! key = None) as Hgone.
  { subst st1. simpl. apply lookup_delete_eq. }
  split; [exact Hgone|]. split; [|split; [|split]].
  - intros other Hne. subst st1. simpl. rewrite lookup_delete_ne; [|done].
    fold st0. by rewrite Hreg.
  - subst st1. simpl. fold st0. rewrite Hsw. simpl.
    apply elem_of_app. right. by apply list_elem_of_singleton.
  - intros Hinc. subst st1. simpl. fold st0. by apply Hloop.
  - intros identity Hid. unfold requestInvite. rewrite Hid, Hgone.
    destruct (issueRequest identity (peerId st1) (nextRef st1))
      as [[requestId request] decrypt]. simpl.
    eexists. split; [reflexivity|]. simpl. by rewrite lookup_insert_eq.
Qed.

End InviteOrder.

Lemma unknown_identity_is_reported_witness :
  (∀ i, i ∈ identities Demo.ready → ident_publicKey i ≠ fromHex "b2")
  ∧ waitForInvite "b2" Demo.ready
    = (Demo.ready, Fin (Rejected (mkError "Identity not found: b2"))).
Proof.
  assert (∀ i, i ∈ identities Demo.ready → ident_publicKey i ≠ fromHex "b2") as Hno.
  { intros i Hi%list_elem_of_In. simpl in Hi. by destruct Hi as [<-|[]]. }
  split; [exact Hno|].
  exact (proj2 (unknown_identity_is_reported Demo.bs58encode Demo.issueRequest
                  Demo.ready "b2" Hno)).
Defined.

Lemma waitForInvite_needs_request_witness :
  identityByKey Demo.ready "a1" = Some Demo.alice
  ∧ pendingInvites Demo.ready !! "a1" = None
  ∧ waitForInvite "a1" Demo.ready
    = (Demo.ready, Fin (Rejected (mkError "No pending invites for: alice"))).
Proof.
  split; [reflexivity|]. split; [reflexivity|].
  exact (proj1 (waitForInvite_needs_request Demo.bs58encode Demo.issueRequest
                  Demo.ready "a1" Demo.alice eq_refl eq_refl)).
Defined.

(** ** Responses are never taken back *)

Section OutboxFacts.

Lemma track_outbox (sq : nat) (st : Network) (t : Task) (rest : list (nat * Task))
    (sys : System) :
  ∃ new, outbox (track sq st t rest sys) = outbox sys ++ new ∧ length new ≤ 1.
Proof.
  destruct t as [r|X a k]; simpl.
  - exists [replyTo sq r]. split; [done|simpl; lia].
  - exists []. rewrite app_nil_r. split; [done|simpl; lia].
Qed.

Lemma step_outbox (sys : System) (e : Event) :
  ∃ new, outbox (step sys e) = outbox sys ++ new ∧ length new ≤ 1.
Proof.
  destruct e as [P op handler sq payload | i env]; simpl.
  - unfold handle. destruct (negb (isReady (net sys)) && requireReady op).
    + exists [notReady sq]. split; [done|simpl; lia].
    + destruct (handler payload (net sys)) as [st t]. apply track_outbox.
  - unfold resume.
    destruct (inflight sys !! i) as [[sq [r|X a k]]|];
      try (exists []; rewrite app_nil_r; split; [done|simpl; lia]).
    destruct (env X a (net sys)) as [st1 o]. destruct (k o st1) as [st2 t].
    apply track_outbox.
Qed.

End OutboxFacts.

(** X19.  Along any run of the router the responses already sent stay as
    they are, in their order: the outbox after the run is the outbox before
    it followed by the new responses, of which there is at most one per
    event of the run. *)
Theorem outbox_only_grows (evs : list Event) (sys : System) :
  ∃ new, outbox (exec evs sys) = outbox sys ++ new ∧ length new ≤ length evs.
Proof.
  revert sys. induction evs as [|e evs IH]; intros sys.
  - exists []. rewrite app_nil_r. split; [done|simpl; lia].
  - destruct (step_outbox sys e) as (l1 & H1 & Hl1).
    destruct (IH (step sys e)) as (l2 & H2 & Hl2).
    exists (l1 ++ l2). unfold exec in *. simpl. rewrite H2, H1, <- app_assoc.
    split; [done|]. rewrite length_app. simpl. lia.
Qed.

(** ** Initialisation *)

Section InitFacts.

Lemma includes_member (c : Channel) (chs : list Channel) :
  c ∈ chs → includes c chs = true.
Proof.
  intros Hin. unfold includes. apply existsb_exists. exists c.
  split; [by apply list_elem_of_In | apply Nat.eqb_refl].
Qed.

Lemma runUpdateLoop_registers (channel : Channel) (timeout : option nat) (st : Network) :
  (includes channel (channels st) = true →
   is_Some (updateLoops (runUpdateLoop channel timeout st) !! cref channel))
  ∧ (∀ c, is_Some (updateLoops st !! c) →
          is_Some (updateLoops (runUpdateLoop channel timeout st) !! c))
  ∧ (Forall (λ t, lt_phase t = AwaitingEntry) (loopTasks st) →
     Forall (λ t, lt_phase t = AwaitingEntry)
       (loopTasks (runUpdateLoop channel timeout st))).
Proof.
  unfold runUpdateLoop. destruct (includes channel (channels st)); simpl.
  - case_bool_decide as Hhas; simpl.
    + by split.
    + split; [intros _; rewrite lookup_insert_eq; by eexists|]. split.
      * intros c Hc. destruct (decide (cref channel = c)) as [<-|Hne]; [done|].
        by rewrite lookup_insert_ne.
      * intros Hall. apply Forall_app. split; [done|]. by apply Forall_singleton.
  - by split.
Qed.

(** Starting the loops of a list of channels the instance lists. *)
Lemma start_all (l : list Channel) (st : Network) :
  loops_ok st →
  (∀ c, c ∈ l → includes c (channels st) = true) →
  Forall (λ t, lt_phase t = AwaitingEntry) (loopTasks st) →
  let st' := fold_left (λ s channel, runUpdateLoop channel None s) l st in
  loops_ok st'
  ∧ channels st' = channels st ∧ waitList st' = waitList st
  ∧ isReady st' = isReady st
  ∧ Forall (λ t, lt_phase t = AwaitingEntry) (loopTasks st')
  ∧ (∀ c, is_Some (updateLoops st !! c) → is_Some (updateLoops st' !! c))
  ∧ (∀ c, c ∈ l → is_Some (updateLoops st' !! cref c)).
Proof.
  revert st. induction l as [|x l IH]; intros st Hok Hinc Hphase; simpl.
  - split; [done|]. split; [done|]. split; [done|]. split; [done|]. split; [done|].
    split; [done|]. by intros c ?%elem_of_nil.
  - destruct (runUpdateLoop_registers x None st) as (Hx & Hkeep & Hph).
    destruct (runUpdateLoop_keeps x None st) as [Hchs _].
    destruct (IH (runUpdateLoop x None st)) as (Hok' & Hc' & Hw' & Hr' & Hp' & Hk' & Hall').
    { by apply loops_ok_start. }
    { intros c Hc. rewrite Hchs. apply Hinc. by apply elem_of_cons; right. }
    { by apply Hph. }
    split; [done|]. split; [by rewrite Hc'|].
    split; [by rewrite Hw', runUpdateLoop_waitList|].
    split. { rewrite Hr'. unfold runUpdateLoop. destruct (negb _); [done|].
             by case_bool_decide. }
    split; [done|]. split; [by intros c Hc; apply Hk', Hkeep|].
    intros c [->|Hc]%elem_of_cons.
    + apply Hk', Hx, Hinc, list_elem_of_here.
    + by apply Hall'.
Qed.

End InitFacts.

(** X20.  When [init] resumes with the protocol object, on an instance
    without loops yet, it leaves the instance ready and listing the object's
    channels, each of them with a registry entry and exactly one activation
    of its update loop, waiting on the channel; every waiter of the topic
    [ready] is resolved; and from then on the router runs the handler of any
    operation instead of answering [Not ready]. *)
Theorem init_starts_every_loop (peerLinks : PeerLinks) (st : Network) :
  loopTasks st = [] → updateLoops st = ∅ →
  let st1 := init_resume peerLinks st in
  isReady st1 = true
  ∧ channels st1 = pl_channels peerLinks
  ∧ (∀ c, c ∈ pl_channels peerLinks →
          is_Some (updateLoops st1 !! cref c)
          ∧ length (activations (cref c) st1) = 1
          ∧ length (externalWaits (cref c) st1) = 1)
  ∧ (∀ w, WaitList.registered "ready" w (waitList st) →
          WaitList.delivered (waitList st1) !! w = Some (Fulfilled VUndefined))
  ∧ (∀ (P : Type) (op : Op) (handler : Handler P) (sq : nat) (payload : P)
       (running : list (nat * Task)) (sent : list Response),
       let sys := {| net := st1; inflight := running; outbox := sent |} in
       step sys (Request op handler sq payload)
       = track sq (handler payload st1).1 (handler payload st1).2 running sys).
Proof.
  intros Htasks Hreg st1.
  set (st0 := set_peerId (pl_id peerLinks)
                (set_identities (λ _, pl_identities peerLinks)
                   (set_channels (λ _, pl_channels peerLinks) st))).
  destruct (start_all (pl_channels peerLinks) st0) as (Hok & Hchs & Hwl & _ & Hph & _ & Hall).
  { by apply loops_ok_fresh. }
  { intros c Hc. by apply includes_member. }
  { simpl. rewrite Htasks. constructor. }
  set (st2 := fold_left (λ s channel, runUpdateLoop channel None s)
                (pl_channels peerLinks) st0) in *.
  destruct Hok as [Hsingle Hregistry _ _].
  split; [done|]. split; [exact Hchs|]. split; [|split].
  - intros c Hc. specialize (Hall c Hc). split; [exact Hall|].
    assert (length (activations (cref c) st1) = 1) as Hone.
    { pose proof (filter_single (cref c) (loopTasks st2) Hsingle) as Hle.
      pose proof (filter_present (cref c) (loopTasks st2)
                    (proj1 (Hregistry (cref c)) Hall)) as Hge.
      unfold activations, taskChannel in *.
      change (loopTasks st1) with (loopTasks st2). lia. }
    split; [exact Hone|].
    unfold externalWaits. rewrite <- Hone. f_equal.
    assert (Forall (λ t, lt_phase t = AwaitingEntry) (activations (cref c) st1)) as Hf.
    { apply Forall_forall. intros t Ht. unfold activations in Ht.
      apply list_elem_of_In, filter_In in Ht as [Ht _].
      rewrite Forall_forall in Hph. apply Hph. by apply list_elem_of_In. }
    clear Hone. induction (activations (cref c) st1) as [|t l IH]; [done|].
    apply Forall_cons in Hf as [Ht Hl]. simpl. rewrite Ht. f_equal. by apply IH.
  - intros w Hw. simpl. apply resolve_delivers.
    change (WaitList.registered "ready" w (waitList st2)). rewrite Hwl. exact Hw.
  - intros P op handler sq payload running sent sys. simpl. unfold handle. simpl.
    by destruct (handler payload st1).
Qed.

Lemma init_starts_every_loop_witness :
  loopTasks newNetwork = [] ∧ updateLoops newNetwork = ∅
  ∧ isReady (init_resume Sample.loaded newNetwork) = true
  ∧ length (activations 5 (init_resume Sample.loaded newNetwork)) = 1
  ∧ length (activations 6 (init_resume Sample.loaded newNetwork)) = 1.
Proof.
  split; [reflexivity|]. split; [reflexivity|].
  destruct (init_starts_every_loop Sample.loaded newNetwork eq_refl eq_refl)
    as (Hready & _ & Hloops & _).
  split; [exact Hready|]. split.
  - apply (Hloops Sample.news). apply list_elem_of_here.
  - apply (Hloops Sample.random). apply elem_of_cons. right. apply list_elem_of_here.
Defined.
